(** * Scene-text pipeline: post-processing and orchestration

    A shallow embedding of the glue code of the detection / recognition
    pipeline:

    - [src/text_detection_app.py]: [dumpRotateImage] and
      [TextDetectionApp.detect];
    - [src/densenetocr/core.py]: [DenseNetOCR.predict];
    - [src/ctpn/core.py]: the proposal filter inside [CTPN.predict].

    Conventions.

    - Python [int] and numpy [int32] coordinates are [Z].  All coordinates
      handled here are pixel positions inside an image, far from the 32-bit
      limits, so no wrap-around takes place.
    - Python [float] values that feed the trigonometry of the rectifier are
      real numbers ([R]).  The only angle whose numeric value matters below
      is 0, where binary64 arithmetic and the reals agree: [sin 0 = 0],
      [cos 0 = 1], and [atan2(0, x) = 0] for positive [x].
    - The truncations [int(d * 0.1)] and [int(d * 0.2)] are written with
      [Z.quot]; [binary64_int_mul] computes the same expressions on IEEE
      binary64 numbers and the remark [xlength_ylength_binary64] checks
      that both agree on every pixel distance up to 4096.  In the same way
      [int(w / (h * 1.0 / 32))] is written [Z.quot (32 * w) h].
    - Scores, probabilities and regressed box coordinates, which are only
      compared and truncated, are rationals ([Q]).
    - A numpy image is a shape together with a pixel function; slicing
      follows numpy's rules for basic slices (negative bound counted from the
      end, bounds clipped to the axis).
    - The neural networks, OpenCV's resampling and PIL's pixel operations
      are collaborators: fields of the class [Collaborators]. *)

From Stdlib Require Import ZArith QArith Qabs Qminmax Reals Lia Lra Psatz List String Bool Floats.
From stdpp Require Import base option list gmap strings.
Import ListNotations.

Local Open Scope Z_scope.

(* ================================================================== *)
(** * Python values and exceptions                                     *)
(* ================================================================== *)

Module Py.

(** The exceptions the modelled code can raise. *)
Inductive exn : Type :=
| KeyError (k : nat)
| IndexError
| ZeroDivisionError
| ValueError
| FileNotFoundError (path : string).

(** A computation either returns a value or raises. *)
Inductive result (A : Type) : Type :=
| Ok (a : A)
| Raise (e : exn).
Arguments Ok {A} a.
Arguments Raise {A} e.

(** Sequencing: an exception raised by the first statement skips the
    rest.  The instances give [x ← c; k] its meaning on [result]. *)
#[global] Instance result_ret : MRet result := fun A a => Ok a.

#[global] Instance result_bind : MBind result := fun A B k c =>
  match c with
  | Ok a => k a
  | Raise e => Raise e
  end.

(** [[f(x) for x in l]] where [f] may raise: the first exception wins. *)
Fixpoint for_each {A B} (f : A -> result B) (l : list A) : result (list B) :=
  match l with
  | [] => Ok []
  | x :: rest => y ← f x; ys ← for_each f rest; Ok (y :: ys)
  end.

(** [len(t)] of a 2-tuple. *)
Definition len_tuple2 {A B} (t : A * B) : Z := 2.

(** [len(s)] of a [str]. *)
Definition len_str (s : string) : Z := Z.of_nat (String.length s).

(** [int(x)] of a float: truncation toward zero. *)
Definition int (x : R) : Z :=
  if Rle_dec 0 x then Zfloor x else Zceil x.

Definition radians (x : R) : R := (x * PI / 180)%R.
Definition degrees (x : R) : R := (x * 180 / PI)%R.

(** [math.atan2(y, x)] on finite arguments that are not negative zero. *)
Definition atan2 (y x : R) : R :=
  if Rlt_dec 0 x then atan (y / x)
  else if Rlt_dec x 0 then
    (if Rle_dec 0 y then atan (y / x) + PI else atan (y / x) - PI)%R
  else if Rlt_dec 0 y then (PI / 2)%R
  else if Rlt_dec y 0 then (- PI / 2)%R
  else 0%R.

(** [int(float(d) * c)] evaluated on IEEE binary64 numbers. *)
Definition float_of_Z (d : Z) : float :=
  let m := PrimFloat.of_uint63 (Uint63.of_Z (Z.abs d)) in
  if d <? 0 then PrimFloat.opp m else m.

Definition int_of_float (f : float) : Z :=
  match Prim2SF f with
  | S754_finite s m e =>
      let a := if 0 <=? e then Z.pos m * 2 ^ e else Z.pos m / 2 ^ (- e) in
      if s then - a else a
  | _ => 0
  end.

Definition binary64_int_mul (d : Z) (c : float) : Z :=
  int_of_float (PrimFloat.mul (float_of_Z d) c).

End Py.

Import Py.

(* ================================================================== *)
(** * numpy arrays                                                     *)
(* ================================================================== *)

Module Numpy.

(** A two-dimensional image [a] with [a.shape[:2] = (shape0, shape1)];
    [px a i j] is the element [a[i, j]] (a whole pixel). *)
Record ndarray (pixel : Type) : Type := mk_ndarray {
  shape0 : Z;
  shape1 : Z;
  px : Z -> Z -> pixel;
}.
Arguments mk_ndarray {pixel} _ _ _.
Arguments shape0 {pixel} _.
Arguments shape1 {pixel} _.
Arguments px {pixel} _ _ _.

(** Position that a slice bound [i] denotes on an axis of length [n]. *)
Definition slice_index (n i : Z) : Z :=
  if i <? 0 then Z.max 0 (i + n) else Z.min i n.

(** [a[r0:r1, c0:c1]]. *)
Definition slice2 {pixel} (a : ndarray pixel) (r0 r1 c0 c1 : Z) : ndarray pixel :=
  let rs := slice_index (shape0 a) r0 in
  let re := slice_index (shape0 a) r1 in
  let cs := slice_index (shape1 a) c0 in
  let ce := slice_index (shape1 a) c1 in
  {| shape0 := Z.max 0 (re - rs);
     shape1 := Z.max 0 (ce - cs);
     px := fun i j => px a (rs + i) (cs + j) |}.

(** [np.where(mask)[0]] for a one-dimensional mask given as a predicate
    over the elements: the positions where it holds, increasing. *)
Fixpoint where_from {A} (p : A -> bool) (i : nat) (l : list A) : list nat :=
  match l with
  | [] => []
  | x :: rest =>
      if p x then i :: where_from p (S i) rest else where_from p (S i) rest
  end.

Definition where_ {A} (p : A -> bool) (l : list A) : list nat :=
  where_from p 0 l.

(** [a[idx]] for an integer index array [idx]: [IndexError] when an index
    is out of bounds. *)
Definition take {A} (a : list A) (idx : list nat) : result (list A) :=
  for_each (fun i => match a !! i with
                     | Some x => Ok x
                     | None => Raise IndexError
                     end) idx.

(** [x.astype('int32')] of a float inside the 32-bit range. *)
Definition astype_int32 (x : Q) : Z := Z.quot (Qnum x) (Z.pos (Qden x)).

End Numpy.

Import Numpy.

(* ================================================================== *)
(** * PIL images                                                       *)
(* ================================================================== *)

Module PIL.

Inductive mode : Type := RGB | L.

(** A PIL image: [im.size = (width, height)], its mode, and its pixel
    data, whose representation is left to the collaborators. *)
Record image (payload : Type) : Type := mk_image {
  size : Z * Z;
  im_mode : mode;
  data : payload;
}.
Arguments mk_image {payload} _ _ _.
Arguments size {payload} _.
Arguments im_mode {payload} _.
Arguments data {payload} _.

End PIL.

(* ================================================================== *)
(** * Shared data                                                      *)
(* ================================================================== *)

(** One row [rec] of the array returned by [CTPN.predict(.., mode=2)],
    already cast to [int32]: [rec0 r] is [rec[0]], and so on.  The code
    reads [rec[0]] to [rec[7]] (the drawing branch of [CTPN.predict]) and
    [rec[0]] to [rec[3]] ([TextDetectionApp.detect]); later columns, if
    there are any, are never read. *)
Record text_rec : Type := mk_rec {
  rec0 : Z; rec1 : Z; rec2 : Z; rec3 : Z;
  rec4 : Z; rec5 : Z; rec6 : Z; rec7 : Z;
}.

(** A 2x3 affine matrix, row by row. *)
Record affine : Type := mk_affine {
  m00 : R; m01 : R; m02 : R;
  m10 : R; m11 : R; m12 : R;
}.

(* ================================================================== *)
(** * Collaborators                                                    *)
(* ================================================================== *)

(** Everything the modelled code calls but does not define: the two
    networks, OpenCV's affine resampling, PIL's pixel operations and the
    file system. *)
Class Collaborators : Type := {
  (** one element of a colour image *)
  pixel : Type;
  (** pixel data of a PIL image *)
  payload : Type;
  (** [cv2.warpAffine(src, M, (w, h), borderValue=(255, 255, 255))[i, j]] *)
  warp_px : ndarray pixel -> affine -> Z * Z -> Z -> Z -> pixel;
  (** pixel data of [Image.fromarray(a)] *)
  fromarray_data : ndarray pixel -> payload;
  (** pixel data of [im.convert('L')] *)
  convert_L_data : payload -> payload;
  (** pixel data of [im.resize(size, Image.ANTIALIAS)] *)
  resize_data : payload -> Z * Z -> payload;
  (** [Image.open(path)] *)
  image_open : string -> result (PIL.image payload);
  (** [self.base_model.predict(X)[0]] for the batch [X] built from the
      resized strip: one row of class probabilities per time step *)
  base_model_predict : PIL.image payload -> list (list Q);
  (** [self.ctpn.predict(image_path, mode=2)] *)
  ctpn_predict : string -> list text_rec * ndarray pixel;
}.

(* ================================================================== *)
(** * OpenCV                                                           *)
(* ================================================================== *)

Module Cv2.

(** [cv2.getRotationMatrix2D(center, angle, scale)], angle in degrees. *)
Definition getRotationMatrix2D (center : Z * Z) (angle scale : R) : affine :=
  let cx := IZR (fst center) in
  let cy := IZR (snd center) in
  let alpha := (scale * cos (radians angle))%R in
  let beta := (scale * sin (radians angle))%R in
  {| m00 := alpha; m01 := beta; m02 := ((1 - alpha) * cx - beta * cy)%R;
     m10 := (- beta)%R; m11 := alpha; m12 := (beta * cx + (1 - alpha) * cy)%R |}.

(** The matrix that leaves every point where it is. *)
Definition identity_affine : affine :=
  {| m00 := 1; m01 := 0; m02 := 0; m10 := 0; m11 := 1; m12 := 0 |}.

(** [cv2.warpAffine(src, M, dsize, borderValue=..)]: an image with
    [dsize = (width, height)] whose pixels the collaborator supplies. *)
Definition warpAffine `{Collaborators} (src : ndarray pixel) (M : affine)
    (dsize : Z * Z) : ndarray pixel :=
  {| shape0 := snd dsize; shape1 := fst dsize; px := warp_px src M dsize |}.

End Cv2.

(** [np.dot(M, np.array([[x], [y], [1]]))]. *)
Definition dot_affine (M : affine) (p : Z * Z) : R * R :=
  ((m00 M * IZR (fst p) + m01 M * IZR (snd p) + m02 M * 1)%R,
   (m10 M * IZR (fst p) + m11 M * IZR (snd p) + m12 M * 1)%R).

(* ================================================================== *)
(** * [src/densenetocr/core.py]                                        *)
(* ================================================================== *)

Module DenseNetOCR.

(** [np.argmax(row)]: the first position of the largest entry. *)
Fixpoint argmax_from (best_i : nat) (best : Q) (i : nat) (row : list Q) : nat :=
  match row with
  | [] => best_i
  | p :: rest =>
      if Qle_bool p best then argmax_from best_i best (S i) rest
      else argmax_from i p (S i) rest
  end.

Definition argmax (row : list Q) : nat :=
  match row with
  | [] => 0%nat
  | p :: rest => argmax_from 0 p 1 rest
  end.

(** The loop of the greedy CTC decoder behind [K.ctc_decode] (TensorFlow's
    [ctc_greedy_decoder], [merge_repeated=True]): a class is emitted when
    it is not the blank and differs from the class of the previous time
    step. *)
Fixpoint greedy_emit (blank : nat) (prev : option nat) (path : list nat) : list nat :=
  match path with
  | [] => []
  | c :: rest =>
      if negb (Nat.eqb c blank) && negb (bool_decide (prev = Some c))
      then c :: greedy_emit blank (Some c) rest
      else greedy_emit blank (Some c) rest
  end.

(** The blank of [K.ctc_decode] is the last class. *)
Definition blank_of (y_pred : list (list Q)) : nat :=
  (length (hd [] y_pred) - 1)%nat.

(** [K.get_value(K.ctc_decode(y_pred, input_length=..)[0][0])[0]] for a
    batch of one sequence decoded over its whole length. *)
Definition ctc_decode (y_pred : list (list Q)) : list nat :=
  greedy_emit (blank_of y_pred) None (map argmax y_pred).

(** [id_to_char[x]]. *)
Definition getitem (id_to_char : gmap nat string) (x : nat) : result string :=
  match id_to_char !! x with
  | Some c => Ok c
  | None => Raise (KeyError x)
  end.

(** [u''.join([id_to_char[x] for x in out[0]])]. *)
Definition join_chars (id_to_char : gmap nat string) (out : list nat) : result string :=
  chars ← for_each (getitem id_to_char) out; Ok (String.concat EmptyString chars).

Section Predict.
Context `{Collaborators}.

(** [im.convert('L')]. *)
Definition convert_L (im : PIL.image payload) : PIL.image payload :=
  {| PIL.size := PIL.size im; PIL.im_mode := PIL.L;
     PIL.data := convert_L_data (PIL.data im) |}.

(** [im.resize(size, Image.ANTIALIAS)]; PIL refuses an empty target. *)
Definition resize (im : PIL.image payload) (size : Z * Z) : result (PIL.image payload) :=
  if (fst size <? 1) || (snd size <? 1) then Raise ValueError
  else Ok {| PIL.size := size; PIL.im_mode := PIL.im_mode im;
             PIL.data := resize_data (PIL.data im) size |}.

(** The argument of [predict]: a path or an image. *)
Inductive image_arg : Type :=
| Path (p : string)
| Img (im : PIL.image payload).

(** [w = int(im.size[0] / (im.size[1] * 1.0 / 32))]: the width that keeps
    the aspect ratio at height 32; dividing by a zero height raises. *)
Definition scaled_width (size : Z * Z) : result Z :=
  if snd size =? 0 then Raise ZeroDivisionError
  else Ok (Z.quot (32 * fst size) (snd size)).

(** Lines 151 to 154: [Image.open(image)] for a [str], the argument
    itself otherwise. *)
Definition as_image (image : image_arg) : result (PIL.image payload) :=
  match image with
  | Path p => image_open p
  | Img im => Ok im
  end.

(** [DenseNetOCR.predict(self, image, id_to_char)]. *)
Definition predict (image : image_arg) (id_to_char : gmap nat string)
    : result (string * PIL.image payload) :=
  img ← as_image image;
  let im := convert_L img in
  w ← scaled_width (PIL.size im);
  im ← resize im (w, 32);
  let y_pred := base_model_predict im in
  let out := ctc_decode y_pred in
  out ← join_chars id_to_char out;
  Ok (out, im).

(** The image [im] of line 160 when the resize goes through: [img]
    converted to grey and brought to height 32. *)
Definition resized (img : PIL.image payload) : PIL.image payload :=
  let im := convert_L img in
  let size := (Z.quot (32 * fst (PIL.size im)) (snd (PIL.size im)), 32) in
  {| PIL.size := size; PIL.im_mode := PIL.L;
     PIL.data := resize_data (PIL.data im) size |}.

(** Every class that the decoder emits for [im] has a character. *)
Definition covers (id_to_char : gmap nat string) (im : PIL.image payload) : Prop :=
  Forall (fun x => is_Some (id_to_char !! x)) (ctc_decode (base_model_predict im)).

End Predict.

(** The decoder as the specification words it: collapse runs of equal
    classes, then drop the blanks. *)
Fixpoint collapse_repeats (path : list nat) : list nat :=
  match path with
  | [] => []
  | c :: rest =>
      match rest with
      | [] => [c]
      | c' :: _ =>
          if Nat.eqb c c' then collapse_repeats rest
          else c :: collapse_repeats rest
      end
  end.

Definition drop_blanks (blank : nat) (path : list nat) : list nat :=
  List.filter (fun c => negb (Nat.eqb c blank)) path.

Definition best_path (blank : nat) (path : list nat) : list nat :=
  drop_blanks blank (collapse_repeats path).

End DenseNetOCR.

(* ================================================================== *)
(** * [src/ctpn/core.py]: the proposal filter of [CTPN.predict]        *)
(* ================================================================== *)

Module CTPN.

(** A row of [bbox] (decoded, clipped, still floating point) and a row of
    [select_anchor] after [astype('int32')]: [x1, y1, x2, y2]. *)
Record fbox : Type := mk_fbox { fx1 : Q; fy1 : Q; fx2 : Q; fy2 : Q }.
Record ibox : Type := mk_ibox { x1 : Z; y1 : Z; x2 : Z; y2 : Z }.

Definition astype_int32_box (b : fbox) : ibox :=
  {| x1 := astype_int32 (fx1 b); y1 := astype_int32 (fy1 b);
     x2 := astype_int32 (fx2 b); y2 := astype_int32 (fy2 b) |}.

(** Extent of a box in pixels, both border columns (rows) counted. *)
Definition box_width (b : ibox) : Z := x2 b - x1 b + 1.
Definition box_height (b : ibox) : Z := y2 b - y1 b + 1.

Definition size_ok (minsize : Z) (b : ibox) : bool :=
  (minsize <=? box_width b) && (minsize <=? box_height b).

(** Modelled from the spec: [utils.filter_bbox] of [ctpn/lib/utils.py],
    which is not among the sources.  The minimum-size filter "discards
    boxes whose width or height is below one stride"; like every index
    filter of [CTPN.predict] it answers with the positions to keep. *)
Definition filter_bbox (bbox : list ibox) (minsize : Z) : list nat :=
  where_ (size_ok minsize) bbox.

(** [score > 0.7]. *)
Definition is_fg (score : Q) : bool := negb (Qle_bool score (7 # 10)).

(** Lines 152 to 163 of [CTPN.predict]: [bbox] are the decoded boxes,
    [cls_prod1] is [cls_prod[0, :, 1]]; the result is
    [(select_anchor, select_score)] as handed to [nms]. *)
Definition select_proposals (bbox : list fbox) (cls_prod1 : list Q)
    : result (list ibox * list Q) :=
  (* score > 0.7 *)
  let fg := where_ is_fg cls_prod1 in
  select_anchor ← take bbox fg;
  select_score ← take cls_prod1 fg;
  let select_anchor := map astype_int32_box select_anchor in
  (* filter size *)
  let keep_index := filter_bbox select_anchor 16 in
  select_anchor' ← take select_anchor keep_index;
  select_score ← take select_score keep_index;
  Ok (select_anchor', select_score).

(** The same two filters applied in the other order: size first, score
    second.  Not in the source; it is the other side of the comparison. *)
Definition select_proposals_size_first (bbox : list fbox) (cls_prod1 : list Q)
    : result (list ibox * list Q) :=
  let anchor := map astype_int32_box bbox in
  let keep_index := filter_bbox anchor 16 in
  select_anchor ← take anchor keep_index;
  select_score ← take cls_prod1 keep_index;
  let fg := where_ is_fg select_score in
  select_anchor' ← take select_anchor fg;
  select_score ← take select_score fg;
  Ok (select_anchor', select_score).

(** The two masks on a box paired with its score. *)
Definition row_is_fg (row : fbox * Q) : bool := is_fg (snd row).
Definition row_box (row : fbox * Q) : ibox := astype_int32_box (fst row).
Definition row_size_ok (row : fbox * Q) : bool := size_ok 16 (row_box row).

(** Both filters as one mask over the paired rows. *)
Definition both_masks (row : fbox * Q) : bool :=
  row_is_fg row && row_size_ok row.

Definition masked (bbox : list fbox) (cls_prod1 : list Q) : list ibox * list Q :=
  let kept := List.filter both_masks (zip bbox cls_prod1) in
  (map row_box kept, map snd kept).

End CTPN.

(* ================================================================== *)
(** * [src/text_detection_app.py]                                      *)
(* ================================================================== *)

Module TextDetectionApp.

(** The four points handed to [dumpRotateImage]. *)
Record corners : Type := mk_corners {
  pt1 : Z * Z;
  pt2 : Z * Z;
  pt3 : Z * Z;
  pt4 : Z * Z;
}.

(** [int((rec[2] - rec[0]) * 0.1)] and [int((rec[3] - rec[1]) * 0.2)]. *)
Definition xlength (rec : text_rec) : Z := Z.quot (rec2 rec - rec0 rec) 10.
Definition ylength (rec : text_rec) : Z := Z.quot (rec3 rec - rec1 rec) 5.

(** Lines 62 to 73 of [detect]. *)
Definition crop_corners (adjust : bool) (xDim yDim : Z) (rec : text_rec) : corners :=
  let xlength := xlength rec in
  let ylength := ylength rec in
  if adjust then
    {| pt1 := (Z.max 1 (rec0 rec - xlength), Z.max 1 (rec1 rec - ylength));
       pt2 := (rec2 rec, rec1 rec);
       pt3 := (Z.min (rec2 rec + xlength) (xDim - 2), Z.min (yDim - 2) (rec3 rec + ylength));
       pt4 := (rec0 rec, rec3 rec) |}
  else
    {| pt1 := (Z.max 1 (rec0 rec), Z.max 1 (rec1 rec));
       pt2 := (rec2 rec, rec1 rec);
       pt3 := (Z.min (rec2 rec) (xDim - 2), Z.min (yDim - 2) (rec3 rec));
       pt4 := (rec0 rec, rec3 rec) |}.

(** The two arguments of [atan2] on line 75: [(pt2[1] - pt1[1],
    pt2[0] - pt1[0])]. *)
Definition angle_args (c : corners) : Z * Z :=
  (snd (pt2 c) - snd (pt1 c), fst (pt2 c) - fst (pt1 c)).

(** [degrees(atan2(pt2[1] - pt1[1], pt2[0] - pt1[0]))]. *)
Definition degree_of (c : corners) : R :=
  degrees (atan2 (IZR (fst (angle_args c))) (IZR (snd (angle_args c)))).

(** The test of line 79 on [partImg.shape]. *)
Definition invalid_crop {pixel} (partImg : ndarray pixel) : bool :=
  (shape0 partImg <? 1) || (shape1 partImg <? 1) || (shape0 partImg >? shape1 partImg).

(** One entry [results[index] = [rec, text]], where [text] is what
    [self.ocr.predict] returned. *)
Abbreviation entry := (text_rec * (string * PIL.image payload))%type.

Section App.
Context `{Collaborators}.

(** The rotated canvas of [dumpRotateImage]: lines 13 to 19 give the
    matrix and the canvas. *)
Definition rotation_matrix (img : ndarray pixel) (degree : R) : affine * (Z * Z) :=
  let height := shape0 img in
  let width := shape1 img in
  let heightNew :=
    int (IZR width * Rabs (sin (radians degree)) + IZR height * Rabs (cos (radians degree))) in
  let widthNew :=
    int (IZR height * Rabs (sin (radians degree)) + IZR width * Rabs (cos (radians degree))) in
  let matRotation := Cv2.getRotationMatrix2D (width / 2, height / 2) degree 1 in
  let matRotation :=
    {| m00 := m00 matRotation; m01 := m01 matRotation;
       m02 := (m02 matRotation + IZR ((widthNew - width) / 2))%R;
       m10 := m10 matRotation; m11 := m11 matRotation;
       m12 := (m12 matRotation + IZR ((heightNew - height) / 2))%R |} in
  (matRotation, (widthNew, heightNew)).

Definition rotated_canvas (img : ndarray pixel) (degree : R) : ndarray pixel :=
  let '(matRotation, dsize) := rotation_matrix img degree in
  Cv2.warpAffine img matRotation dsize.

(** [dumpRotateImage(img, degree, pt1, pt2, pt3, pt4)]. *)
Definition dumpRotateImage (img : ndarray pixel) (degree : R)
    (pt1 pt2 pt3 pt4 : Z * Z) : ndarray pixel :=
  let matRotation := fst (rotation_matrix img degree) in
  let imgRotation := rotated_canvas img degree in
  let pt1 := dot_affine matRotation pt1 in
  let pt3 := dot_affine matRotation pt3 in
  let ydim := shape0 imgRotation in
  let xdim := shape1 imgRotation in
  slice2 imgRotation
    (Z.max 1 (int (snd pt1))) (Z.min (ydim - 1) (int (snd pt3)))
    (Z.max 1 (int (fst pt1))) (Z.min (xdim - 1) (int (fst pt3))).

(** [Image.fromarray(partImg)]. *)
Definition fromarray (a : ndarray pixel) : PIL.image payload :=
  {| PIL.size := (shape1 a, shape0 a); PIL.im_mode := PIL.RGB;
     PIL.data := fromarray_data a |}.

(** The state of one run of [detect]: the dictionary [results], and the
    images handed to [self.ocr.predict] so far (most recent first), kept
    here only to tell whether recognition was attempted. *)
Record run : Type := mk_run {
  results : gmap nat entry;
  ocr_calls : list (PIL.image payload);
}.

(** [partImg] of lines 62 to 77 for one region. *)
Definition rectify (img : ndarray pixel) (adjust : bool) (rec : text_rec) : ndarray pixel :=
  let xDim := shape1 img in
  let yDim := shape0 img in
  let c := crop_corners adjust xDim yDim rec in
  let degree := degree_of c in
  dumpRotateImage img degree (pt1 c) (pt2 c) (pt3 c) (pt4 c).

(** [image] of line 82 for one region, and what [self.ocr.predict]
    answers for it on line 83. *)
Definition strip_of (img : ndarray pixel) (adjust : bool) (rec : text_rec)
    : PIL.image payload :=
  DenseNetOCR.convert_L (fromarray (rectify img adjust rec)).

Definition text_of (img : ndarray pixel) (adjust : bool)
    (id_to_char : gmap nat string) (rec : text_rec)
    : result (string * PIL.image payload) :=
  DenseNetOCR.predict (DenseNetOCR.Img (strip_of img adjust rec)) id_to_char.

(** The body of the loop of [detect] (lines 62 to 87) for one
    [(index, rec)]. *)
Definition detect_region (img : ndarray pixel) (adjust : bool)
    (id_to_char : gmap nat string) (index : nat) (rec : text_rec) (st : run)
    : result run :=
  let partImg := rectify img adjust rec in
  if invalid_crop partImg then
    (* continue *)
    Ok st
  else
    let image := DenseNetOCR.convert_L (fromarray partImg) in
    let st := {| results := results st; ocr_calls := image :: ocr_calls st |} in
    text ← DenseNetOCR.predict (DenseNetOCR.Img image) id_to_char;
    if len_tuple2 text >? 0 then
      Ok {| results := <[index := (rec, text)]> (results st); ocr_calls := ocr_calls st |}
    else
      Ok st.

(** [for index, rec in enumerate(text_recs): ...], entered at [index]. *)
Fixpoint detect_loop (img : ndarray pixel) (adjust : bool)
    (id_to_char : gmap nat string) (index : nat) (text_recs : list text_rec)
    (st : run) : result run :=
  match text_recs with
  | [] => Ok st
  | rec :: rest =>
      st ← detect_region img adjust id_to_char index rec st;
      detect_loop img adjust id_to_char (S index) rest st
  end.

Definition detect_run (image_path : string) (adjust : bool)
    (id_to_char : gmap nat string) : result run :=
  let '(text_recs, img) := ctpn_predict image_path in
  detect_loop img adjust id_to_char 0 text_recs {| results := ∅; ocr_calls := [] |}.

(** [TextDetectionApp.detect(self, image_path, adjust)], with
    [self.id_to_char] as a parameter. *)
Definition detect (image_path : string) (adjust : bool)
    (id_to_char : gmap nat string) : result (gmap nat entry) :=
  st ← detect_run image_path adjust id_to_char;
  Ok (results st).

End App.

(** The corner layout that the drawing branch of [CTPN.predict] gives a
    row (lines 177 to 181 of [ctpn/core.py] join [(i[0], i[1])] with
    [(i[2], i[3])] and with [(i[4], i[5])], and [(i[6], i[7])] with both
    of these): [(rec[0], rec[1])] is the top-left corner and
    [(rec[2], rec[3])] the top-right one. *)
Definition quad_top_left (rec : text_rec) : Z * Z := (rec0 rec, rec1 rec).
Definition quad_top_right (rec : text_rec) : Z * Z := (rec2 rec, rec3 rec).

(** The corner layout [detect] itself assumes when it builds [pt2] and
    [pt4]: [rec[0..3]] as left, top, right, bottom. *)
Definition box_top_left (rec : text_rec) : Z * Z := (rec0 rec, rec1 rec).
Definition box_top_right (rec : text_rec) : Z * Z := (rec2 rec, rec1 rec).

(** [degrees(atan2(dy, dx))] of the edge from [p] to [q]. *)
Definition edge_angle (p q : Z * Z) : R :=
  degrees (atan2 (IZR (snd q - snd p)) (IZR (fst q - fst p))).

End TextDetectionApp.

Import TextDetectionApp.

(* ================================================================== *)
(** * A small instance                                                 *)
(* ================================================================== *)

(** Concrete collaborators on which the definitions can be run: a grey
    image of 100 rows and 200 columns, a resampler that keeps every pixel
    where it is, PIL images that carry no pixel data, and a recogniser
    over the classes [0] ("A"), [1] ("B") and [2] (the blank) that reads
    "A, A, blank, A" on strips at least 100 pixels wide and nothing but
    blanks on narrower ones. *)
Module Demo.

Definition a_row : list Q := [8 # 10; 1 # 10; 1 # 10]%Q.
Definition blank_row : list Q := [1 # 10; 1 # 10; 8 # 10]%Q.

Definition network (im : PIL.image unit) : list (list Q) :=
  if 100 <=? fst (PIL.size im) then [a_row; a_row; blank_row; a_row]
  else [blank_row; blank_row].

Definition img : ndarray Z :=
  {| shape0 := 100; shape1 := 200; px := fun i j => 200 * i + j |}.

(** Three detections: a wide line, a region taller than wide, a short
    line. *)
Definition rec_wide : text_rec := mk_rec 10 10 110 30 10 30 110 30.
Definition rec_tall : text_rec := mk_rec 50 10 60 60 50 60 60 60.
Definition rec_short : text_rec := mk_rec 20 50 60 70 20 70 60 70.

Definition text_recs : list text_rec := [rec_wide; rec_tall; rec_short].

(** A region whose top edge, as [CTPN.predict] draws it, rises by 20
    pixels over 100. *)
Definition rec_slanted : text_rec := mk_rec 10 10 110 30 10 50 110 70.

#[global] Instance collaborators : Collaborators := {|
  pixel := Z;
  payload := unit;
  warp_px := fun src _ _ i j => px src i j;
  fromarray_data := fun _ => tt;
  convert_L_data := fun d => d;
  resize_data := fun d _ => d;
  image_open := fun path => Raise (FileNotFoundError path);
  base_model_predict := network;
  ctpn_predict := fun _ => (text_recs, img);
|}.

Definition id_to_char : gmap nat string :=
  <[0%nat := "A"%string]> (<[1%nat := "B"%string]> (<[2%nat := "-"%string]> ∅)).

(** The strips handed to the recogniser, after the resize to height 32. *)
Definition im_wide : PIL.image unit :=
  {| PIL.size := (160, 32); PIL.im_mode := PIL.L; PIL.data := tt |}.
Definition im_short : PIL.image unit :=
  {| PIL.size := (64, 32); PIL.im_mode := PIL.L; PIL.data := tt |}.

(** The dictionary [detect] returns on this instance. *)
Definition results : gmap nat (text_rec * (string * PIL.image unit)) :=
  <[0%nat := (rec_wide, ("AA"%string, im_wide))]>
    (<[2%nat := (rec_short, (EmptyString, im_short))]> ∅).

(** Decoded boxes and scores for the proposal filter: the first passes
    both filters, the second is too small, the third scores too low. *)
Definition bbox : list CTPN.fbox :=
  [ CTPN.mk_fbox 0 (21 # 2) 15 (81 # 2);
    CTPN.mk_fbox 16 10 31 (35 # 2);
    CTPN.mk_fbox 32 10 47 40 ]%Q.
Definition cls_prod1 : list Q := [9 # 10; 95 # 100; 1 # 2]%Q.

(** The matrix of the class sequence "A, A, blank, A" and an all-blank
    one. *)
Definition y_AAbA : list (list Q) := [a_row; a_row; blank_row; a_row].
Definition y_blank : list (list Q) := [blank_row; blank_row; blank_row].

End Demo.

(* ================================================================== *)
(** * More of [src/text_detection_app.py] and [src/ctpn/core.py]       *)
(* ================================================================== *)

(** The regions whose strip passes the test of line 79 of [detect]. *)
Definition passes `{Collaborators} (img : ndarray pixel) (adjust : bool)
    (rec : text_rec) : bool :=
  negb (invalid_crop (rectify img adjust rec)).

Module CTPNStage.

(** Lines 152 to 163 of [CTPN.predict] once more, with [utils.filter_bbox]
    left open: [CTPN.select_proposals] is the instance at
    [CTPN.filter_bbox]. *)
Definition select_proposals_with (filter_bbox : list CTPN.ibox -> Z -> list nat)
    (bbox : list CTPN.fbox) (cls_prod1 : list Q)
    : result (list CTPN.ibox * list Q) :=
  (* score > 0.7 *)
  let fg := where_ CTPN.is_fg cls_prod1 in
  select_anchor ← take bbox fg;
  select_score ← take cls_prod1 fg;
  let select_anchor := map CTPN.astype_int32_box select_anchor in
  (* filter size *)
  let keep_index := filter_bbox select_anchor 16 in
  select_anchor' ← take select_anchor keep_index;
  select_score ← take select_score keep_index;
  Ok (select_anchor', select_score).

End CTPNStage.

(* ================================================================== *)
(** * [src/ctpn/core.py]: the losses                                   *)
(* ================================================================== *)

Module RpnLoss.

(** [K.sum] of a vector and [K.mean] of a non-empty one. *)
Definition Qsum (l : list Q) : Q := fold_right Qplus 0%Q l.
Definition Qmean (l : list Q) : Q := (Qsum l / inject_Z (Z.of_nat (length l)))%Q.

(** One anchor of [y_true[0]] in [_rpn_loss_regr]: [(class, regr)] where
    [regr] is [y_true[0, i, 1:3]]. *)
Record target : Type := mk_target { t_cls : Q; t_regr : Q * Q }.

Definition sigma : Q := 9.

(** [tf.cast(tf.less(diff, 1.0 / sigma), 'float32')]. *)
Definition less_one (diff : Q) : Q :=
  if Qle_bool (1 / sigma) diff then 0%Q else 1%Q.

(** One element of
    [less_one * 0.5 * diff ** 2 * sigma + tf.abs(1 - less_one) * (diff - 0.5 / sigma)]. *)
Definition smooth_l1 (diff : Q) : Q :=
  (less_one diff * (1 # 2) * (diff * diff) * sigma
   + Qabs (1 - less_one diff) * (diff - (1 # 2) / sigma))%Q.

(** One row of [K.sum(loss, axis=1)] for a kept anchor. *)
Definition row_loss (regr_true regr_pred : Q * Q) : Q :=
  (smooth_l1 (Qabs (fst regr_true - fst regr_pred))
   + smooth_l1 (Qabs (snd regr_true - snd regr_pred)))%Q.

(** [_rpn_loss_regr(y_true, y_pred)] on [y_true[0]] and [y_pred[0]];
    [tf.gather] with an index past the end is an error. *)
Definition _rpn_loss_regr (y_true : list target) (y_pred : list (Q * Q)) : result Q :=
  let cls := map t_cls y_true in
  let regr := map t_regr y_true in
  let regr_keep := where_ (fun c => Qeq_bool c 1) cls in
  regr_true ← take regr regr_keep;
  regr_pred ← take y_pred regr_keep;
  let loss := zip_with row_loss regr_true regr_pred in
  Ok (if (0 <? length loss)%nat then Qmean loss else 0%Q).

(** [K.clip(x, lo, hi)]. *)
Definition clip (x lo hi : Q) : Q := Qmin (Qmax x lo) hi.

(** [tf.cast(x, 'int64')] of a float. *)
Definition astype_int64 (x : Q) : Z := Z.quot (Qnum x) (Z.pos (Qden x)).

(** [_rpn_loss_cls(y_true, y_pred)] on [y_true[0][0]] and [y_pred[0]];
    [xent label logits] stands for one row of
    [tf.nn.sparse_softmax_cross_entropy_with_logits]. *)
Definition _rpn_loss_cls (xent : Z -> Q * Q -> Q) (y_true : list Q)
    (y_pred : list (Q * Q)) : result Q :=
  let cls_keep := where_ (fun c => negb (Qeq_bool c (-1))) y_true in
  cls_true ← take y_true cls_keep;
  cls_pred ← take y_pred cls_keep;
  let cls_true := map astype_int64 cls_true in
  let loss := zip_with xent cls_true cls_pred in
  Ok (if (0 <? length loss)%nat then clip (Qmean loss) 0 10 else 0%Q).

End RpnLoss.

(* ================================================================== *)
(** * Shapes of the two networks                                       *)
(* ================================================================== *)

(** The Keras layers used by [__build_model], as functions on the shape
    [(rows, cols, channels)] of one sample. *)
Module Keras.

Record shape3 : Type := mk_shape3 { rows : Z; cols : Z; chans : Z }.

(** [Conv2D(filters, kernel, strides=(sh, sw), padding='same')]. *)
Definition conv2d_same (filters sh sw : Z) (x : shape3) : shape3 :=
  {| rows := (rows x + sh - 1) / sh; cols := (cols x + sw - 1) / sw; chans := filters |}.

(** [AveragePooling2D((ph, pw), strides=(sh, sw))], padding ['valid']. *)
Definition average_pooling2d (ph pw sh sw : Z) (x : shape3) : shape3 :=
  {| rows := (rows x - ph) / sh + 1; cols := (cols x - pw) / sw + 1; chans := chans x |}.

(** [ZeroPadding2D(padding=(h, w))]. *)
Definition zero_padding2d (h w : Z) (x : shape3) : shape3 :=
  {| rows := rows x + 2 * h; cols := cols x + 2 * w; chans := chans x |}.

(** [concatenate([a, b])] along the channels; the other axes must
    agree. *)
Definition concatenate (a b : shape3) : option shape3 :=
  if (rows a =? rows b) && (cols a =? cols b)
  then Some {| rows := rows a; cols := cols a; chans := chans a + chans b |}
  else None.

(** [tf.reshape(x, target)]: the element counts must agree. *)
Definition reshape (shape target : list Z) : option (list Z) :=
  if fold_right Z.mul 1 shape =? fold_right Z.mul 1 target then Some target else None.

End Keras.

Module DenseNetShape.
Import Keras.

(** [_conv_block]: normalisation, activation and drop-out keep the
    shape. *)
Definition _conv_block (input : shape3) (growth_rate : Z) : shape3 :=
  conv2d_same growth_rate 1 1 input.

(** [_dense_block(x, nb_layers, nb_filter, growth_rate, ..)]. *)
Fixpoint _dense_block (x : shape3) (nb_layers : nat) (nb_filter growth_rate : Z)
    : option (shape3 * Z) :=
  match nb_layers with
  | O => Some (x, nb_filter)
  | S n =>
      let cb := _conv_block x growth_rate in
      x ← concatenate x cb;
      _dense_block x n (nb_filter + growth_rate) growth_rate
  end.

(** [_transition_block(input, nb_filter, dropout_rate, pooltype, ..)]. *)
Definition _transition_block (input : shape3) (nb_filter pooltype : Z) : shape3 * Z :=
  let x := conv2d_same nb_filter 1 1 input in
  let x :=
    if pooltype =? 2 then average_pooling2d 2 2 2 2 x
    else if pooltype =? 1 then average_pooling2d 2 2 2 1 (zero_padding2d 0 1 x)
    else if pooltype =? 3 then average_pooling2d 2 2 2 1 x
    else x in
  (x, nb_filter).

(** The layers of [__build_model] up to [y_pred], on an input of
    [image_height] rows, [width] columns and [image_channels] channels:
    the shapes after the three dense blocks and the shape
    [(time steps, classes)] of [y_pred]. *)
Record build : Type := mk_build {
  block1 : shape3 * Z;
  block2 : shape3 * Z;
  block3 : shape3 * Z;
  y_pred_shape : Z * Z;
}.

Definition build_model (image_height width image_channels filters num_classes : Z)
    : option build :=
  let input := {| rows := image_height; cols := width; chans := image_channels |} in
  let nb_filter := filters in
  let x := conv2d_same nb_filter 2 2 input in
  b1 ← _dense_block x 8 nb_filter 8;
  let '(x, nb_filter) := _transition_block (fst b1) 128 2 in
  b2 ← _dense_block x 8 nb_filter 8;
  let '(x, nb_filter) := _transition_block (fst b2) 128 2 in
  b3 ← _dense_block x 8 nb_filter 8;
  let x := fst b3 in
  (* Permute((2, 1, 3)), TimeDistributed(Flatten()), Dense(num_classes) *)
  let flat := (cols x, rows x * chans x) in
  Some {| block1 := b1; block2 := b2; block3 := b3;
          y_pred_shape := (fst flat, num_classes) |}.

End DenseNetShape.

Module CTPNShape.
Import Keras.

(** [_reshape], [_reshape2] and [_reshape3] on the shape [b] of their
    argument. *)
Definition _reshape (b : list Z) : option (list Z) :=
  match b with
  | [b0; b1; b2; b3] => reshape b [b0 * b1; b2; b3]
  | _ => None
  end.

Definition _reshape2 (x1 b : list Z) : option (list Z) :=
  match b with
  | [b0; b1; b2; _] => reshape x1 [b0; b1; b2; 256]
  | _ => None
  end.

Definition _reshape3 (b : list Z) : option (list Z) :=
  match b with
  | [b0; b1; b2; _] => reshape b [b0; b1 * b2 * 10; 2]
  | _ => None
  end.

(** The head of [__build_model] from [rpn_conv1] on, for a feature map
    of shape [(n, h, w, _)]: the shapes of [cls] and [regr] after
    [_reshape3]. *)
Definition head (n h w : Z) : option (list Z * list Z) :=
  let x := [n; h; w; 512] in
  x1 ← _reshape x;
  (* Bidirectional(GRU(128, return_sequences=True)) *)
  x2 ← match x1 with [a; b; _] => Some [a; b; 256] | _ => None end;
  x3 ← _reshape2 x2 x;
  (* lstm_fc keeps the grid; rpn_class and rpn_regress have 10 * 2 channels *)
  grid ← match x3 with [a; b; c; _] => Some [a; b; c; 10 * 2] | _ => None end;
  cls ← _reshape3 grid;
  regr ← _reshape3 grid;
  Some (cls, regr).

End CTPNShape.

(* ================================================================== *)
(** * Constructors and configurations                                  *)
(* ================================================================== *)

Module Config.

(** A value of a configuration dictionary. *)
Inductive value : Type :=
| VFloat (q : Q)
| VInt (z : Z)
| VBool (b : bool)
| VNone
| VStr (s : string).

(** The outcome of calling a class with the entries of a dictionary as
    keyword arguments: the object, or the [TypeError] Python raises for an
    unexpected or a missing argument. *)
Inductive built (A : Type) : Type :=
| Built (a : A)
| TypeError.
Arguments Built {A} a.
Arguments TypeError {A}.

(** Every key of [kwargs] is a parameter. *)
Definition known (params : list string) (kwargs : gmap string value) : bool :=
  bool_decide (dom kwargs ⊆ (list_to_set params : gset string)).

(** The argument bound to [name]: the one given, else the default. *)
Definition arg (kwargs : gmap string value) (name : string) (dflt : value) : value :=
  default dflt (kwargs !! name).

(** The attributes that [DenseNetOCR.__init__] sets; [weights] is the
    path handed to [load_weights], [VNone] when none was. *)
Record densenet : Type := mk_densenet {
  num_classes : value; lr : value; image_height : value; image_channels : value;
  maxlen : value; dropout_rate : value; weight_decay : value; filters : value;
  num_gpu : value; weights : value;
}.

Definition densenet_params : list string :=
  ["num_classes"; "lr"; "image_height"; "image_channels"; "maxlen";
   "dropout_rate"; "weight_decay"; "filters"; "weight_path"; "num_gpu"]%string.

(** [DenseNetOCR.__init__] called with the keyword arguments [kwargs]. *)
Definition densenet_init (kwargs : gmap string value) : built densenet :=
  if known densenet_params kwargs then
    match kwargs !! "num_classes"%string with
    | None => TypeError
    | Some n =>
        Built {| num_classes := n;
                 lr := arg kwargs "lr" (VFloat (5 # 10000));
                 image_height := arg kwargs "image_height" (VInt 32);
                 image_channels := arg kwargs "image_channels" (VInt 1);
                 maxlen := arg kwargs "maxlen" (VInt 50);
                 dropout_rate := arg kwargs "dropout_rate" (VFloat (2 # 10));
                 weight_decay := arg kwargs "weight_decay" (VFloat (1 # 10000));
                 filters := arg kwargs "filters" (VInt 64);
                 num_gpu := arg kwargs "num_gpu" (VInt 1);
                 weights := arg kwargs "weight_path" VNone |}
    end
  else TypeError.

(** [DenseNetOCR.config(self)]. *)
Definition densenet_config (o : densenet) : gmap string value :=
  list_to_map
    [("lr", lr o); ("num_classes", num_classes o); ("image_height", image_height o);
     ("image_channels", image_channels o); ("maxlen", maxlen o);
     ("dropout_rate", dropout_rate o); ("weight_decay", weight_decay o);
     ("filters", filters o)]%string.

(** The attributes that [CTPN.__init__] sets. *)
Record ctpn : Type := mk_ctpn {
  c_lr : value; c_image_channels : value; c_vgg_trainable : value;
  c_num_gpu : value; c_weights : value;
}.

Definition ctpn_params : list string :=
  ["lr"; "image_channels"; "vgg_trainable"; "weight_path"; "num_gpu"]%string.

(** [CTPN.__init__] called with the keyword arguments [kwargs]. *)
Definition ctpn_init (kwargs : gmap string value) : built ctpn :=
  if known ctpn_params kwargs then
    Built {| c_lr := arg kwargs "lr" (VFloat (1 # 100000));
             c_image_channels := arg kwargs "image_channels" (VInt 3);
             c_vgg_trainable := arg kwargs "vgg_trainable" (VBool true);
             c_num_gpu := arg kwargs "num_gpu" (VInt 1);
             c_weights := arg kwargs "weight_path" VNone |}
  else TypeError.

(** [CTPN.config(self)]. *)
Definition ctpn_config (o : ctpn) : gmap string value :=
  list_to_map
    [("image_channels", c_image_channels o); ("vgg_trainable", c_vgg_trainable o);
     ("lr", c_lr o)]%string.

(** What [TextDetectionApp.__init__] leaves in [self]. *)
Record app : Type := mk_app {
  app_id_to_char : gmap nat string;
  app_ctpn : ctpn;
  app_ocr : densenet;
}.

(** [TextDetectionApp.__init__]: [id_to_char] is what [load_dict] read;
    [ctpn_config] and [densenet_config] are [None] when the matching path
    argument is [None], and otherwise what [load_config] read from it. *)
Definition app_init (ctpn_weight_path densenet_weight_path : value)
    (id_to_char : gmap nat string)
    (ctpn_config densenet_config : option (gmap string value)) : built app :=
  match
    match ctpn_config with
    | Some cfg => ctpn_init (<["weight_path"%string := ctpn_weight_path]> cfg)
    | None => ctpn_init ∅
    end
  with
  | TypeError => TypeError
  | Built c =>
      match
        match densenet_config with
        | Some cfg => densenet_init (<["weight_path"%string := densenet_weight_path]> cfg)
        | None =>
            densenet_init {["num_classes"%string := VInt (Z.of_nat (size id_to_char))]}
        end
      with
      | TypeError => TypeError
      | Built o => Built {| app_id_to_char := id_to_char; app_ctpn := c; app_ocr := o |}
      end
  end.

End Config.

(** Inputs on which the properties below are exercised: a dictionary
    without the class 0, a strip as [detect] would hand it over, anchors
    with their regression targets and predictions, and labelled anchors
    with a stand-in for the cross-entropy of one row. *)
Module Samples.

Definition id_to_char_B : gmap nat string := {[1%nat := "B"%string]}.

Definition strip : PIL.image unit :=
  {| PIL.size := (100, 20); PIL.im_mode := PIL.RGB; PIL.data := tt |}.

Definition anchors : list (RpnLoss.target * (Q * Q)) :=
  [ (RpnLoss.mk_target 1 (1 # 2, 1 # 4), (1 # 2, 1 # 3));
    (RpnLoss.mk_target 0 (0, 0), (5, 5));
    (RpnLoss.mk_target (-1) (3, 3), (7, 7)) ]%Q.

Definition anchors' : list (RpnLoss.target * (Q * Q)) :=
  [ (RpnLoss.mk_target 1 (1 # 2, 1 # 4), (1 # 2, 1 # 3));
    (RpnLoss.mk_target 0 (1, 1), (0, 0));
    (RpnLoss.mk_target (-1) (0, 0), (2, 2)) ]%Q.

Definition labelled : list (Q * (Q * Q)) :=
  [ (1, (1 # 2, 3)); (-1, (5, 5)); (0, (2, 1 # 2)) ]%Q.

Definition labelled' : list (Q * (Q * Q)) :=
  [ (1, (1 # 2, 3)); (-1, (0, 9)); (0, (2, 1 # 2)) ]%Q.

Definition xent (label : Z) (logits : Q * Q) : Q :=
  if label =? 0 then fst logits else snd logits.

End Samples.

(* ================================================================== *)
(** * Properties of the numeric helpers                                *)
(* ================================================================== *)

Lemma int_IZR (z : Z) : int (IZR z) = z.
Proof.
  unfold int. destruct (Rle_dec 0 (IZR z)) as [_|_].
  - apply ZfloorZ.
  - apply Zceil_eq. lra.
Qed.

Lemma degrees_0 : degrees 0 = 0%R.
Proof. unfold degrees. unfold Rdiv. now rewrite !Rmult_0_l. Qed.

Lemma radians_0 : radians 0 = 0%R.
Proof. unfold radians. unfold Rdiv. now rewrite !Rmult_0_l. Qed.

Lemma atan2_pos (y x : R) : (0 < x)%R -> atan2 y x = atan (y / x).
Proof. intros Hx. unfold atan2. now destruct (Rlt_dec 0 x). Qed.

Lemma atan2_0_pos (x : R) : (0 < x)%R -> atan2 0 x = 0%R.
Proof.
  intros Hx. rewrite atan2_pos by exact Hx.
  unfold Rdiv. rewrite Rmult_0_l. apply atan_0.
Qed.

Lemma degrees_lt (a b : R) : (a < b)%R -> (degrees a < degrees b)%R.
Proof.
  intros Hab. unfold degrees, Rdiv.
  assert (HPI : (0 < / PI)%R) by (apply Rinv_0_lt_compat, PI_RGT_0).
  apply Rmult_lt_compat_r; [exact HPI|]. lra.
Qed.

(** The integer model of [int(d * 0.1)] and [int(d * 0.2)] agrees with
    binary64 arithmetic on all pixel distances up to 4096, of either
    sign. *)
Remark xlength_ylength_binary64 :
  forallb (fun d =>
             (binary64_int_mul d 0x1.999999999999ap-4 =? Z.quot d 10)
             && (binary64_int_mul d 0x1.999999999999ap-3 =? Z.quot d 5))
          (map (fun n => Z.of_nat n - 4096) (seq 0 (Z.to_nat 8193))) = true.
Proof. vm_compute. reflexivity. Qed.

(* ================================================================== *)
(** * The loose-crop corners                                           *)
(* ================================================================== *)

Lemma quot_within (d k : Z) : 0 < k -> Z.abs (k * Z.quot d k - d) < k.
Proof.
  intros Hk.
  pose proof (Z.quot_rem d k ltac:(lia)) as Hqr.
  pose proof (Z.rem_bound_abs d k ltac:(lia)) as Hr.
  lia.
Qed.


(* ================================================================== *)
(** * The proposal filter                                              *)
(* ================================================================== *)

Import CTPN.

Section IndexFilters.
Context {A B : Type}.

Lemma where_from_map (p : B -> bool) (g : A -> B) (l : list A) (i : nat) :
  where_from p i (map g l) = where_from (fun x => p (g x)) i l.
Proof.
  revert i. induction l as [|x l IH]; intros i; cbn; [reflexivity|].
  rewrite IH. reflexivity.
Qed.

(** Gathering the rows that [np.where] points at is filtering. *)
Lemma take_where_from (f : A -> B) (q : A -> bool) (pre l : list A) :
  take (map f (pre ++ l)) (where_from q (length pre) l)
  = Ok (map f (List.filter q l)).
Proof.
  revert pre. induction l as [|x l IH]; intros pre; cbn; [reflexivity|].
  assert (Hnext : take (map f (pre ++ x :: l)) (where_from q (S (length pre)) l)
                  = Ok (map f (List.filter q l))).
  { specialize (IH (pre ++ [x])).
    rewrite <- app_assoc, length_app in IH. cbn in IH.
    rewrite Nat.add_1_r in IH. exact IH. }
  destruct (q x); [|exact Hnext].
  unfold take in *. cbn.
  rewrite list_lookup_fmap, lookup_app_r by lia.
  rewrite Nat.sub_diag. cbn.
  rewrite Hnext. reflexivity.
Qed.

Lemma take_where (f : A -> B) (q : A -> bool) (l : list A) :
  take (map f l) (where_from q 0 l) = Ok (map f (List.filter q l)).
Proof. apply (take_where_from f q [] l). Qed.

End IndexFilters.

Lemma filter_filter_andb {A} (p q : A -> bool) (l : list A) :
  List.filter q (List.filter p l) = List.filter (fun x => p x && q x) l.
Proof.
  induction l as [|x l IH]; cbn; [reflexivity|].
  destruct (p x); cbn; [destruct (q x)|]; now rewrite IH.
Qed.

Lemma zip_fst_snd {A B} (a : list A) (b : list B) :
  length a = length b ->
  map fst (zip a b) = a /\ map snd (zip a b) = b.
Proof.
  revert b. induction a as [|x a IH]; intros [|y b] Hlen; cbn in *;
    try discriminate; [split; reflexivity|].
  destruct (IH b ltac:(lia)) as [-> ->]. split; reflexivity.
Qed.

Lemma masked_rows (rows : list (CTPN.fbox * Q)) :
  CTPN.masked (map fst rows) (map snd rows)
  = (map row_box (List.filter (fun r => row_is_fg r && row_size_ok r) rows),
     map snd (List.filter (fun r => row_is_fg r && row_size_ok r) rows)).
Proof.
  unfold CTPN.masked.
  destruct (zip_fst_snd (map fst rows) (map snd rows)) as [Hb Hs];
    [now rewrite !length_map|].
  assert (Hz : zip (map fst rows) (map snd rows) = rows).
  { clear. induction rows as [|[b s] rows IH]; cbn; [reflexivity|]. now rewrite IH. }
  rewrite Hz. reflexivity.
Qed.

(** The order of the source: score first. *)
Lemma select_proposals_rows (rows : list (CTPN.fbox * Q)) :
  CTPN.select_proposals (map fst rows) (map snd rows)
  = Ok (CTPN.masked (map fst rows) (map snd rows)).
Proof.
  rewrite masked_rows.
  unfold CTPN.select_proposals, CTPN.filter_bbox, where_.
  rewrite where_from_map.
  change (fun x : CTPN.fbox * Q => CTPN.is_fg (snd x)) with row_is_fg.
  rewrite (take_where fst row_is_fg rows). cbn.
  rewrite (take_where snd row_is_fg rows). cbn.
  rewrite map_map, where_from_map.
  change (fun x : CTPN.fbox * Q => CTPN.size_ok 16 (CTPN.astype_int32_box (fst x)))
    with row_size_ok.
  change (fun x : CTPN.fbox * Q => CTPN.astype_int32_box (fst x)) with row_box.
  rewrite (take_where row_box row_size_ok (List.filter row_is_fg rows)). cbn.
  rewrite (take_where snd row_size_ok (List.filter row_is_fg rows)). cbn.
  rewrite filter_filter_andb. reflexivity.
Qed.

(** The other order: size first. *)
Lemma select_proposals_size_first_rows (rows : list (CTPN.fbox * Q)) :
  CTPN.select_proposals_size_first (map fst rows) (map snd rows)
  = Ok (CTPN.masked (map fst rows) (map snd rows)).
Proof.
  rewrite masked_rows.
  unfold CTPN.select_proposals_size_first, CTPN.filter_bbox, where_.
  rewrite map_map, where_from_map.
  change (fun x : CTPN.fbox * Q => CTPN.size_ok 16 (CTPN.astype_int32_box (fst x)))
    with row_size_ok.
  change (fun x : CTPN.fbox * Q => CTPN.astype_int32_box (fst x)) with row_box.
  rewrite (take_where row_box row_size_ok rows). cbn.
  rewrite (take_where snd row_size_ok rows). cbn.
  rewrite where_from_map.
  change (fun x : CTPN.fbox * Q => CTPN.is_fg (snd x)) with row_is_fg.
  rewrite (take_where row_box row_is_fg (List.filter row_size_ok rows)). cbn.
  rewrite (take_where snd row_is_fg (List.filter row_size_ok rows)). cbn.
  rewrite filter_filter_andb.
  assert (Hext : List.filter (fun x => row_size_ok x && row_is_fg x) rows
                 = List.filter (fun r => row_is_fg r && row_size_ok r) rows).
  { apply List.filter_ext. intros r. apply andb_comm. }
  rewrite Hext. reflexivity.
Qed.

(** C8. On decoded boxes with their foreground scores (one score per box),
    the score filter followed by the size filter, as [CTPN.predict] runs
    them, and the size filter followed by the score filter keep the same
    boxes with the same scores, in the same order: the rows that pass both
    masks. *)
Theorem C8_filters_commute (bbox : list CTPN.fbox) (cls_prod1 : list Q) :
  length bbox = length cls_prod1 ->
  CTPN.select_proposals bbox cls_prod1
  = CTPN.select_proposals_size_first bbox cls_prod1
  /\ CTPN.select_proposals bbox cls_prod1 = Ok (CTPN.masked bbox cls_prod1).
Proof.
  intros Hlen. destruct (zip_fst_snd bbox cls_prod1 Hlen) as [Hb Hs].
  pose proof (select_proposals_rows (zip bbox cls_prod1)) as Hsrc.
  pose proof (select_proposals_size_first_rows (zip bbox cls_prod1)) as Hrev.
  rewrite Hb, Hs in Hsrc, Hrev.
  rewrite Hsrc, Hrev. split; reflexivity.
Qed.

(* ================================================================== *)
(** * The sequence decoder                                             *)
(* ================================================================== *)

Section Decoder.
Import DenseNetOCR.

Lemma collapse_repeats_head (c : nat) (rest : list nat) :
  collapse_repeats (c :: rest) = c :: tl (collapse_repeats (c :: rest)).
Proof.
  revert c. induction rest as [|c' rest IH]; intros c; [reflexivity|].
  cbn [collapse_repeats]. destruct (Nat.eqb_spec c c') as [->|Hne].
  - apply IH.
  - reflexivity.
Qed.

(** The decoder loop, entered after a time step of class [p], emits what
    is left of the collapsed sequence once the run of [p] is taken off. *)
Lemma greedy_emit_after (blank p : nat) (path : list nat) :
  greedy_emit blank (Some p) path
  = drop_blanks blank (tl (collapse_repeats (p :: path))).
Proof.
  revert p. induction path as [|c rest IH]; intros p; [reflexivity|].
  cbn [greedy_emit]. rewrite IH.
  change (collapse_repeats (p :: c :: rest))
    with (if Nat.eqb p c then collapse_repeats (c :: rest)
          else p :: collapse_repeats (c :: rest)).
  destruct (Nat.eqb_spec p c) as [->|Hne].
  - rewrite bool_decide_eq_true_2 by reflexivity.
    rewrite andb_false_r. reflexivity.
  - rewrite bool_decide_eq_false_2 by congruence.
    rewrite andb_true_r. cbn [tl].
    pose proof (collapse_repeats_head c rest) as Hhead.
    destruct (collapse_repeats (c :: rest)) as [|h t]; [discriminate|].
    cbn [tl] in *. injection Hhead as ->.
    unfold drop_blanks. cbn [List.filter].
    destruct (Nat.eqb c blank); reflexivity.
Qed.

Lemma greedy_emit_best_path (blank : nat) (path : list nat) :
  greedy_emit blank None path = best_path blank path.
Proof.
  destruct path as [|c rest]; [reflexivity|].
  cbn [greedy_emit]. rewrite greedy_emit_after.
  rewrite bool_decide_eq_false_2 by discriminate.
  rewrite andb_true_r. unfold best_path.
  pose proof (collapse_repeats_head c rest) as Hhead.
  destruct (collapse_repeats (c :: rest)) as [|h t]; [discriminate|].
  cbn [tl] in *. injection Hhead as ->.
  unfold drop_blanks. cbn [List.filter].
  destruct (Nat.eqb c blank); reflexivity.
Qed.

Lemma best_path_all_blank (blank : nat) (path : list nat) :
  Forall (fun c => c = blank) path -> best_path blank path = [].
Proof.
  intros Hall. unfold best_path.
  induction Hall as [|c rest -> Hrest IH]; [reflexivity|].
  destruct rest as [|c' rest].
  - cbn. now rewrite Nat.eqb_refl.
  - cbn [collapse_repeats]. inversion Hrest; subst.
    rewrite Nat.eqb_refl. exact IH.
Qed.

End Decoder.

(** C6. [K.ctc_decode] followed by the dictionary look-up is best-path
    decoding: the arg-max class of every time step, runs of one class
    collapsed to a single occurrence, blanks dropped, the remaining classes
    mapped through [id_to_char] and concatenated.  A matrix whose arg-max
    is the blank at every time step decodes to the empty string, and the
    class sequence [A, A, blank, A] decodes to the character of [A]
    twice. *)
Theorem C6_best_path_decoding (y_pred : list (list Q)) (id_to_char : gmap nat string) :
  let blank := DenseNetOCR.blank_of y_pred in
  let path := map DenseNetOCR.argmax y_pred in
  DenseNetOCR.ctc_decode y_pred
  = DenseNetOCR.drop_blanks blank (DenseNetOCR.collapse_repeats path)
  /\ DenseNetOCR.join_chars id_to_char (DenseNetOCR.ctc_decode y_pred)
     = (chars ← for_each (DenseNetOCR.getitem id_to_char)
                  (DenseNetOCR.best_path blank path);
        Ok (String.concat EmptyString chars))
  /\ (Forall (fun c => c = blank) path ->
      DenseNetOCR.join_chars id_to_char (DenseNetOCR.ctc_decode y_pred) = Ok EmptyString)
  /\ (forall (A : nat) (cA : string),
        A <> blank -> path = [A; A; blank; A] -> id_to_char !! A = Some cA ->
        DenseNetOCR.join_chars id_to_char (DenseNetOCR.ctc_decode y_pred)
        = Ok (cA ++ cA)%string).
Proof.
  intros blank path.
  assert (Hdec : DenseNetOCR.ctc_decode y_pred = DenseNetOCR.best_path blank path).
  { unfold DenseNetOCR.ctc_decode. apply greedy_emit_best_path. }
  split; [exact Hdec|]. split; [now rewrite Hdec|]. split.
  - intros Hall. rewrite Hdec, (best_path_all_blank blank path Hall). reflexivity.
  - intros A cA HA Hpath HcA. rewrite Hdec, Hpath.
    unfold DenseNetOCR.best_path. cbn [DenseNetOCR.collapse_repeats].
    rewrite Nat.eqb_refl.
    destruct (Nat.eqb_spec A blank) as [Heq|_]; [contradiction|].
    destruct (Nat.eqb_spec blank A) as [Heq|_]; [congruence|].
    unfold DenseNetOCR.drop_blanks. cbn [List.filter].
    destruct (Nat.eqb_spec A blank) as [Heq|_]; [contradiction|].
    rewrite Nat.eqb_refl. cbn [negb].
    unfold DenseNetOCR.join_chars. cbn [for_each].
    unfold DenseNetOCR.getitem. rewrite HcA. reflexivity.
Qed.

(* ================================================================== *)
(** * Recognition of one strip                                         *)
(* ================================================================== *)

Section Recognition.
Context `{Collaborators}.
Import DenseNetOCR.

Lemma for_each_getitem_total (id_to_char : gmap nat string) (out : list nat) :
  Forall (fun x => is_Some (id_to_char !! x)) out ->
  exists chars, for_each (getitem id_to_char) out = Ok chars.
Proof.
  induction 1 as [|x out [c Hc] _ [chars IH]]; [now exists []|].
  exists (c :: chars). cbn [for_each]. unfold getitem in *. rewrite Hc.
  cbn [mbind result_bind]. rewrite IH. reflexivity.
Qed.

Lemma join_chars_total (id_to_char : gmap nat string) (out : list nat) :
  Forall (fun x => is_Some (id_to_char !! x)) out ->
  exists text, join_chars id_to_char out = Ok text.
Proof.
  intros Hcov. destruct (for_each_getitem_total _ _ Hcov) as [chars Hchars].
  exists (String.concat EmptyString chars). unfold join_chars. now rewrite Hchars.
Qed.

(** [predict] on an image of positive height that is not more than 32
    times taller than wide. *)
Lemma predict_unfold (image : image_arg) (img : PIL.image payload)
    (id_to_char : gmap nat string) :
  as_image image = Ok img ->
  0 < snd (PIL.size img) ->
  snd (PIL.size img) <= 32 * fst (PIL.size img) ->
  predict image id_to_char
  = (out ← join_chars id_to_char (ctc_decode (base_model_predict (resized img)));
     Ok (out, resized img)).
Proof.
  intros Himg Hh Hw. unfold predict. rewrite Himg. cbn [mbind result_bind].
  unfold scaled_width, convert_L. cbn [PIL.size].
  destruct (Z.eqb_spec (snd (PIL.size img)) 0) as [Hz|_]; [lia|].
  cbn [mbind result_bind]. unfold resize. cbn [fst snd].
  assert (Hq : 1 <= Z.quot (32 * fst (PIL.size img)) (snd (PIL.size img))).
  { apply Z.quot_le_lower_bound; lia. }
  destruct (Z.ltb_spec (Z.quot (32 * fst (PIL.size img)) (snd (PIL.size img))) 1);
    [lia|].
  reflexivity.
Qed.

(** Whatever [predict] returns is the pair of the decoded text and the
    resized grey image. *)
Lemma predict_inv (image : image_arg) (id_to_char : gmap nat string)
    (v : string * PIL.image payload) :
  predict image id_to_char = Ok v ->
  exists img,
    as_image image = Ok img
    /\ snd v = resized img
    /\ join_chars id_to_char (ctc_decode (base_model_predict (resized img))) = Ok (fst v).
Proof.
  unfold predict. intros Hret.
  destruct (as_image image) as [img|e]; [|discriminate]. cbn [mbind result_bind] in Hret.
  exists img. split; [reflexivity|].
  destruct (scaled_width (PIL.size (convert_L img))) as [w|e] eqn:Hw; [|discriminate].
  cbn [mbind result_bind] in Hret.
  unfold scaled_width in Hw. cbn [convert_L PIL.size] in Hw.
  destruct (snd (PIL.size img) =? 0); [discriminate|]. injection Hw as <-.
  unfold resize in Hret. cbn [fst snd] in Hret.
  destruct (_ || _); [discriminate|]. cbn [mbind result_bind] in Hret.
  fold (resized img) in Hret.
  destruct (join_chars id_to_char _) as [out|e]; [|discriminate].
  cbn [mbind result_bind] in Hret. injection Hret as <-. split; reflexivity.
Qed.

End Recognition.

(* ================================================================== *)
(** * The loop of [detect]                                             *)
(* ================================================================== *)

Section Loop.
Context `{Collaborators}.
Variable img : ndarray pixel.
Variable adjust : bool.
Variable id_to_char : gmap nat string.

Lemma invalid_crop_false {P} (a : ndarray P) :
  invalid_crop a = false -> 1 <= shape0 a /\ shape0 a <= shape1 a.
Proof.
  unfold invalid_crop. intros Hv.
  apply orb_false_elim in Hv as [Hv Hgt]. apply orb_false_elim in Hv as [H0 H1].
  apply Z.ltb_ge in H0. rewrite Z.gtb_ltb in Hgt. apply Z.ltb_ge in Hgt. lia.
Qed.

(** A strip that passes the test of line 79 is always accepted by
    [predict]: only a missing dictionary key can make it raise. *)
Lemma text_of_valid (rec : text_rec) :
  invalid_crop (rectify img adjust rec) = false ->
  text_of img adjust id_to_char rec
  = (out ← DenseNetOCR.join_chars id_to_char
             (DenseNetOCR.ctc_decode (base_model_predict (DenseNetOCR.resized (strip_of img adjust rec))));
     Ok (out, DenseNetOCR.resized (strip_of img adjust rec))).
Proof.
  intros Hv. apply invalid_crop_false in Hv as [H0 H1].
  unfold text_of. apply predict_unfold; [reflexivity| |];
    unfold strip_of, DenseNetOCR.convert_L, fromarray; cbn [PIL.size fst snd]; lia.
Qed.

Lemma detect_region_invalid (index : nat) (rec : text_rec) (st : run) :
  invalid_crop (rectify img adjust rec) = true ->
  detect_region img adjust id_to_char index rec st = Ok st.
Proof. intros Hbad. unfold detect_region. now rewrite Hbad. Qed.

(** A region whose strip passes the test is recorded whatever the text
    is: [len(text)] is the length of the pair. *)
Lemma detect_region_valid (index : nat) (rec : text_rec) (st : run)
    (text : string * PIL.image payload) :
  invalid_crop (rectify img adjust rec) = false ->
  text_of img adjust id_to_char rec = Ok text ->
  detect_region img adjust id_to_char index rec st
  = Ok {| results := <[index := (rec, text)]> (results st);
          ocr_calls := strip_of img adjust rec :: ocr_calls st |}.
Proof.
  intros Hv Htext. unfold detect_region. rewrite Hv.
  fold (strip_of img adjust rec). fold (text_of img adjust id_to_char rec). rewrite Htext. reflexivity.
Qed.

Lemma detect_region_inv (index : nat) (rec : text_rec) (st st' : run) :
  detect_region img adjust id_to_char index rec st = Ok st' ->
  (invalid_crop (rectify img adjust rec) = true /\ st' = st)
  \/ (invalid_crop (rectify img adjust rec) = false
      /\ exists text, text_of img adjust id_to_char rec = Ok text
         /\ st' = {| results := <[index := (rec, text)]> (results st);
                     ocr_calls := strip_of img adjust rec :: ocr_calls st |}).
Proof.
  intros Hstep. destruct (invalid_crop (rectify img adjust rec)) eqn:Hv.
  - left. rewrite detect_region_invalid in Hstep by exact Hv.
    injection Hstep as <-. split; reflexivity.
  - right. split; [reflexivity|].
    destruct (text_of img adjust id_to_char rec) as [text|e] eqn:Htext.
    + exists text. split; [reflexivity|].
      rewrite (detect_region_valid _ _ _ text) in Hstep by assumption.
      now injection Hstep as <-.
    + unfold detect_region in Hstep. rewrite Hv in Hstep.
      fold (strip_of img adjust rec) in Hstep. fold (text_of img adjust id_to_char rec) in Hstep.
      rewrite Htext in Hstep. discriminate.
Qed.

(** What the dictionary holds after the loop: outside the indices of the
    loop nothing changes; at the index of a region, the entry is the region
    with its recognition result when the strip passed the test, and the
    key is left alone when it did not. *)
Lemma detect_loop_lookup (text_recs : list text_rec) :
  forall (index : nat) (st st' : run),
    detect_loop img adjust id_to_char index text_recs st = Ok st' ->
    forall k : nat,
      ((k < index \/ index + length text_recs <= k)%nat ->
       results st' !! k = results st !! k)
      /\ (forall rec, (index <= k)%nat -> text_recs !! (k - index)%nat = Some rec ->
          if invalid_crop (rectify img adjust rec)
          then results st' !! k = results st !! k
          else exists text, text_of img adjust id_to_char rec = Ok text
                            /\ results st' !! k = Some (rec, text)).
Proof.
  induction text_recs as [|rec rest IH]; intros index st st' Hloop k.
  - cbn in Hloop. injection Hloop as <-. split; [reflexivity|].
    intros rec _ Hrec. discriminate.
  - cbn [detect_loop] in Hloop.
    destruct (detect_region img adjust id_to_char index rec st) as [st1|e] eqn:Hstep;
      [|discriminate].
    cbn [mbind result_bind] in Hloop.
    destruct (IH (S index) st1 st' Hloop k) as [IHout IHin].
    assert (Hother : k <> index -> results st1 !! k = results st !! k).
    { intros Hne. destruct (detect_region_inv _ _ _ _ Hstep)
        as [[_ ->]|[_ [text [_ ->]]]]; [reflexivity|].
      cbn [results]. now rewrite lookup_insert_ne by congruence. }
    split.
    + cbn [length]. intros Hk. rewrite IHout by lia. apply Hother. lia.
    + intros rec' Hle Hrec'. destruct (decide (k = index)) as [->|Hne].
      * rewrite Nat.sub_diag in Hrec'. cbn in Hrec'. injection Hrec' as <-.
        specialize (IHout ltac:(lia)).
        destruct (detect_region_inv _ _ _ _ Hstep)
          as [[Hv ->]|[Hv [text [Htext ->]]]]; rewrite Hv; [exact IHout|].
        exists text. split; [exact Htext|]. rewrite IHout. cbn [results].
        apply lookup_insert_eq.
      * replace (k - index)%nat with (S (k - S index)) in Hrec' by lia.
        cbn in Hrec'. specialize (IHin rec' ltac:(lia) Hrec').
        destruct (invalid_crop (rectify img adjust rec')).
        -- rewrite IHin. apply Hother, Hne.
        -- exact IHin.
Qed.

(** An entry of the dictionary built from scratch sits at the index of
    its region, whose strip passed the test, and holds what [predict]
    returned for it. *)
Lemma detect_loop_entry (text_recs : list text_rec) (st : run) (k : nat)
    (rec : text_rec) (text : string * PIL.image payload) :
  detect_loop img adjust id_to_char 0 text_recs {| results := ∅; ocr_calls := [] |} = Ok st ->
  results st !! k = Some (rec, text) ->
  text_recs !! k = Some rec
  /\ invalid_crop (rectify img adjust rec) = false
  /\ text_of img adjust id_to_char rec = Ok text.
Proof.
  intros Hloop Hk.
  destruct (detect_loop_lookup text_recs 0 _ st Hloop k) as [Hout Hin].
  cbn [results] in Hout, Hin.
  destruct (text_recs !! k) as [rec'|] eqn:Hrec.
  - specialize (Hin rec' ltac:(lia)). rewrite Nat.sub_0_r in Hin.
    specialize (Hin Hrec).
    destruct (invalid_crop (rectify img adjust rec')) eqn:Hv.
    + rewrite Hin, lookup_empty in Hk. discriminate.
    + destruct Hin as [text' [Htext Hk']]. rewrite Hk' in Hk.
      injection Hk as <- <-. repeat split; assumption.
  - apply lookup_ge_None in Hrec. rewrite Hout, lookup_empty in Hk by lia.
    discriminate.
Qed.

(** When every emitted class has a character, the loop never raises. *)
Lemma detect_loop_total (text_recs : list text_rec) :
  (forall im, DenseNetOCR.covers id_to_char im) ->
  forall (index : nat) (st : run),
    exists st', detect_loop img adjust id_to_char index text_recs st = Ok st'.
Proof.
  intros Hcov. induction text_recs as [|rec rest IH]; intros index st.
  - now exists st.
  - cbn [detect_loop].
    destruct (invalid_crop (rectify img adjust rec)) eqn:Hv.
    + rewrite detect_region_invalid by exact Hv. cbn [mbind result_bind]. apply IH.
    + destruct (join_chars_total id_to_char _ (Hcov (DenseNetOCR.resized (strip_of img adjust rec))))
        as [out Hout].
      rewrite (detect_region_valid _ _ _ (out, DenseNetOCR.resized (strip_of img adjust rec))); [|exact Hv|].
      * cbn [mbind result_bind]. apply IH.
      * rewrite text_of_valid by exact Hv. now rewrite Hout.
Qed.

End Loop.

(** [detect] returns whenever the dictionary has a character for every
    class the recogniser can emit. *)
Lemma detect_returns `{Collaborators} (image_path : string) (adjust : bool)
    (id_to_char : gmap nat string) :
  (forall im, DenseNetOCR.covers id_to_char im) ->
  exists res, detect image_path adjust id_to_char = Ok res.
Proof.
  intros Hcov. unfold detect, detect_run.
  destruct (ctpn_predict image_path) as [text_recs img].
  destruct (detect_loop_total img adjust id_to_char text_recs Hcov 0
              {| results := ∅; ocr_calls := [] |}) as [st Hst].
  exists (results st). rewrite Hst. reflexivity.
Qed.

(* ================================================================== *)
(** * The rectifier                                                    *)
(* ================================================================== *)

Section Rectifier.
Context `{Collaborators}.

(** At zero degrees the canvas has the size of the image and the matrix
    is the identity. *)
Lemma rotation_matrix_0 (img : ndarray pixel) :
  rotation_matrix img 0 = (Cv2.identity_affine, (shape1 img, shape0 img)).
Proof.
  unfold rotation_matrix, Cv2.getRotationMatrix2D, Cv2.identity_affine.
  cbn [m00 m01 m02 m10 m11 m12 fst snd].
  rewrite radians_0, sin_0, cos_0, Rabs_R0, Rabs_R1.
  replace (IZR (shape1 img) * 0 + IZR (shape0 img) * 1)%R
    with (IZR (shape0 img)) by ring.
  replace (IZR (shape0 img) * 0 + IZR (shape1 img) * 1)%R
    with (IZR (shape1 img)) by ring.
  rewrite !int_IZR, !Z.sub_diag. change (0 / 2) with 0.
  f_equal. f_equal; ring.
Qed.

Lemma dot_affine_identity (p : Z * Z) :
  dot_affine Cv2.identity_affine p = (IZR (fst p), IZR (snd p)).
Proof. unfold dot_affine, Cv2.identity_affine; cbn. f_equal; ring. Qed.

Lemma dumpRotateImage_0 (img : ndarray pixel) (p1 p2 p3 p4 : Z * Z) :
  dumpRotateImage img 0 p1 p2 p3 p4
  = slice2 (Cv2.warpAffine img Cv2.identity_affine (shape1 img, shape0 img))
      (Z.max 1 (snd p1)) (Z.min (shape0 img - 1) (snd p3))
      (Z.max 1 (fst p1)) (Z.min (shape1 img - 1) (fst p3)).
Proof.
  unfold dumpRotateImage, rotated_canvas. rewrite rotation_matrix_0.
  cbn [fst snd]. rewrite !dot_affine_identity. cbn [fst snd].
  rewrite !int_IZR. reflexivity.
Qed.

Lemma degree_of_level (c : corners) :
  snd (pt1 c) = snd (pt2 c) -> fst (pt1 c) < fst (pt2 c) -> degree_of c = 0%R.
Proof.
  intros Hy Hx. unfold degree_of, angle_args. cbn [fst snd].
  rewrite Hy, Z.sub_diag. rewrite atan2_0_pos; [apply degrees_0|].
  apply IZR_lt. lia.
Qed.

(** The strip of a region handled without [adjust] whose top y is at
    least 1 and whose right x lies beyond its clamped left x. *)
Lemma rectify_upright (img : ndarray pixel) (rec : text_rec) :
  1 <= rec1 rec ->
  Z.max 1 (rec0 rec) < rec2 rec ->
  rectify img false rec
  = slice2 (Cv2.warpAffine img Cv2.identity_affine (shape1 img, shape0 img))
      (Z.max 1 (rec1 rec)) (Z.min (shape0 img - 2) (rec3 rec))
      (Z.max 1 (rec0 rec)) (Z.min (rec2 rec) (shape1 img - 2)).
Proof.
  intros Htop Hright. unfold rectify.
  rewrite degree_of_level by (cbn; lia).
  rewrite dumpRotateImage_0. f_equal; cbn; lia.
Qed.

End Rectifier.

Lemma int_nonneg (x : R) : (0 <= x)%R -> 0 <= int x.
Proof.
  intros Hx. unfold int. destruct (Rle_dec 0 x) as [_|Hn]; [|contradiction].
  apply Zfloor_lub. exact Hx.
Qed.

(** The canvas of an image with a proper shape has a proper shape. *)
Lemma rotated_canvas_shape `{Collaborators} (img : ndarray pixel) (degree : R) :
  0 <= shape0 img -> 0 <= shape1 img ->
  0 <= shape0 (rotated_canvas img degree) /\ 0 <= shape1 (rotated_canvas img degree).
Proof.
  intros H0 H1. unfold rotated_canvas, rotation_matrix, Cv2.warpAffine.
  cbn [shape0 shape1 fst snd].
  apply IZR_le in H0, H1.
  split; apply int_nonneg;
    apply Rplus_le_le_0_compat; apply Rmult_le_pos;
      try assumption; apply Rabs_pos.
Qed.

(** A slice that starts at 1 or later and stops at [n - 1] or earlier
    stays off the first and the last position of the axis. *)
Lemma slice_off_border (n start stop i : Z) :
  0 <= n -> 1 <= start -> stop <= n - 1 ->
  0 <= i < Z.max 0 (slice_index n stop - slice_index n start) ->
  1 <= slice_index n start + i <= n - 2.
Proof.
  unfold slice_index. intros Hn Hs He Hi.
  destruct (Z.ltb_spec start 0); destruct (Z.ltb_spec stop 0); lia.
Qed.

(** C7. The strip returned by [dumpRotateImage] is the slice of the
    rotated canvas from row [max(1, y of the transformed pt1)] to row
    [min(ydim - 1, y of the transformed pt3)] and from column
    [max(1, x of the transformed pt1)] to column
    [min(xdim - 1, x of the transformed pt3)]; every pixel of the strip is a
    pixel of the canvas that lies neither in row 0 or column 0 nor in the
    last row or the last column. *)
Theorem C7_crop_inside_canvas `{Collaborators} (img : ndarray pixel) (degree : R)
    (p1 p2 p3 p4 : Z * Z) :
  0 <= shape0 img -> 0 <= shape1 img ->
  let matRotation := fst (rotation_matrix img degree) in
  let canvas := rotated_canvas img degree in
  let t1 := dot_affine matRotation p1 in
  let t3 := dot_affine matRotation p3 in
  let row0 := Z.max 1 (int (snd t1)) in
  let row1 := Z.min (shape0 canvas - 1) (int (snd t3)) in
  let col0 := Z.max 1 (int (fst t1)) in
  let col1 := Z.min (shape1 canvas - 1) (int (fst t3)) in
  let imgOut := dumpRotateImage img degree p1 p2 p3 p4 in
  imgOut = slice2 canvas row0 row1 col0 col1
  /\ (1 <= row0 /\ row1 <= shape0 canvas - 1 /\ 1 <= col0 /\ col1 <= shape1 canvas - 1)
  /\ (forall i j : Z,
        0 <= i < shape0 imgOut -> 0 <= j < shape1 imgOut ->
        px imgOut i j
        = px canvas (slice_index (shape0 canvas) row0 + i)
                    (slice_index (shape1 canvas) col0 + j)
        /\ 1 <= slice_index (shape0 canvas) row0 + i <= shape0 canvas - 2
        /\ 1 <= slice_index (shape1 canvas) col0 + j <= shape1 canvas - 2).
Proof.
  intros Hh Hw. cbv zeta.
  destruct (rotated_canvas_shape img degree Hh Hw) as [Hy Hx].
  split; [reflexivity|]. split; [lia|].
  intros i j Hi Hj. split; [reflexivity|].
  unfold dumpRotateImage, slice2 in Hi, Hj. cbn [shape0 shape1] in Hi, Hj.
  split; eapply slice_off_border; try eassumption; lia.
Qed.

(** C10. Without [adjust], for a region whose top y is at least 1 and
    whose right x lies beyond its clamped left x, the two points that
    enter the angle have the same y, the angle is exactly 0 degrees, and,
    OpenCV resampling with the identity matrix returning the image
    itself, the strip is the axis-aligned crop of the unrotated image
    between [pt1] and [pt3]. *)
Theorem C10_upright_without_adjust `{Collaborators} (img : ndarray pixel)
    (rec : text_rec) :
  0 <= shape0 img -> 0 <= shape1 img ->
  1 <= rec1 rec ->
  Z.max 1 (rec0 rec) < rec2 rec ->
  (forall i j : Z,
     0 <= i < shape0 img -> 0 <= j < shape1 img ->
     warp_px img Cv2.identity_affine (shape1 img, shape0 img) i j = px img i j) ->
  let c := crop_corners false (shape1 img) (shape0 img) rec in
  let partImg := rectify img false rec in
  let crop := slice2 img (snd (pt1 c)) (snd (pt3 c)) (fst (pt1 c)) (fst (pt3 c)) in
  snd (pt1 c) = snd (pt2 c)
  /\ fst (pt1 c) < fst (pt2 c)
  /\ degree_of c = 0%R
  /\ shape0 partImg = shape0 crop
  /\ shape1 partImg = shape1 crop
  /\ (forall i j : Z,
        0 <= i < shape0 partImg -> 0 <= j < shape1 partImg ->
        px partImg i j = px crop i j).
Proof.
  intros Hh Hw Htop Hright Hwarp c partImg crop.
  assert (Hy : snd (pt1 c) = snd (pt2 c)) by (cbn; lia).
  assert (Hx : fst (pt1 c) < fst (pt2 c)) by (cbn; lia).
  assert (Hdeg : degree_of c = 0%R) by (apply degree_of_level; assumption).
  assert (Hpart : partImg
                  = slice2 (Cv2.warpAffine img Cv2.identity_affine (shape1 img, shape0 img))
                      (snd (pt1 c)) (snd (pt3 c)) (fst (pt1 c)) (fst (pt3 c))).
  { unfold partImg. now rewrite rectify_upright. }
  split; [exact Hy|]. split; [exact Hx|]. split; [exact Hdeg|].
  rewrite Hpart. split; [reflexivity|]. split; [reflexivity|].
  intros i j Hi Hj. unfold slice2, Cv2.warpAffine in *.
  cbn [shape0 shape1 px fst snd] in *.
  apply Hwarp.
  - assert (1 <= snd (pt1 c)) by (cbn; lia).
    assert (snd (pt3 c) <= shape0 img - 1) by (cbn; lia).
    pose proof (slice_off_border (shape0 img) (snd (pt1 c)) (snd (pt3 c)) i Hh). lia.
  - assert (1 <= fst (pt1 c)) by (cbn; lia).
    assert (fst (pt3 c) <= shape1 img - 1) by (cbn; lia).
    pose proof (slice_off_border (shape1 img) (fst (pt1 c)) (fst (pt3 c)) j Hw). lia.
Qed.

(* ================================================================== *)
(** * A run of [detect] on the small instance                          *)
(* ================================================================== *)

Lemma demo_rectify_wide :
  rectify Demo.img false Demo.rec_wide
  = slice2 (Cv2.warpAffine Demo.img Cv2.identity_affine (200, 100)) 10 30 10 110.
Proof. rewrite rectify_upright by (cbn; lia). reflexivity. Qed.

Lemma demo_rectify_tall :
  rectify Demo.img false Demo.rec_tall
  = slice2 (Cv2.warpAffine Demo.img Cv2.identity_affine (200, 100)) 10 60 50 60.
Proof. rewrite rectify_upright by (cbn; lia). reflexivity. Qed.

Lemma demo_rectify_short :
  rectify Demo.img false Demo.rec_short
  = slice2 (Cv2.warpAffine Demo.img Cv2.identity_affine (200, 100)) 50 70 20 60.
Proof. rewrite rectify_upright by (cbn; lia). reflexivity. Qed.

Lemma demo_detect_run :
  detect_run "demo.jpg" false Demo.id_to_char
  = Ok {| results := Demo.results;
          ocr_calls := [ {| PIL.size := (40, 20); PIL.im_mode := PIL.L; PIL.data := tt |};
                         {| PIL.size := (100, 20); PIL.im_mode := PIL.L; PIL.data := tt |} ] |}.
Proof.
  unfold detect_run. cbn [ctpn_predict Demo.collaborators Demo.text_recs detect_loop].
  unfold detect_region.
  rewrite demo_rectify_wide, demo_rectify_tall, demo_rectify_short.
  vm_compute. reflexivity.
Qed.

Lemma demo_detect : detect "demo.jpg" false Demo.id_to_char = Ok Demo.results.
Proof. unfold detect. rewrite demo_detect_run. reflexivity. Qed.

(* ================================================================== *)
(** * The orchestrator                                                 *)
(* ================================================================== *)

(** C1. The run on the small instance: the third region (index 2) has a
    strip that passes the test of line 79 and is decoded to the empty
    string, and [detect] records it all the same, because the value whose
    length line 85 takes is the pair returned by [predict]. *)
Theorem C1_empty_text_is_recorded :
  detect "demo.jpg" false Demo.id_to_char = Ok Demo.results
  /\ invalid_crop (rectify Demo.img false Demo.rec_short) = false
  /\ text_of Demo.img false Demo.id_to_char Demo.rec_short
     = Ok (EmptyString, Demo.im_short)
  /\ Demo.results !! 2%nat = Some (Demo.rec_short, (EmptyString, Demo.im_short))
  /\ len_str EmptyString = 0 /\ len_tuple2 (EmptyString, Demo.im_short) = 2.
Proof.
  split; [exact demo_detect|].
  assert (Hv : invalid_crop (rectify Demo.img false Demo.rec_short) = false).
  { rewrite demo_rectify_short. reflexivity. }
  split; [exact Hv|]. split.
  - unfold text_of, strip_of. rewrite demo_rectify_short. vm_compute. reflexivity.
  - repeat split; vm_compute; reflexivity.
Qed.

(** C2. A region whose strip has fewer than one row, or fewer than one
    column, or more rows than columns, leaves the state of the run as it
    was (no entry, no call of the recogniser), raises nothing, and the
    loop goes on with the regions after it. *)
Theorem C2_invalid_crop_skipped `{Collaborators} (img : ndarray pixel)
    (adjust : bool) (id_to_char : gmap nat string) (index : nat)
    (rec : text_rec) (rest : list text_rec) (st : run) :
  let partImg := rectify img adjust rec in
  shape0 partImg < 1 \/ shape1 partImg < 1 \/ shape0 partImg > shape1 partImg ->
  detect_region img adjust id_to_char index rec st = Ok st
  /\ detect_loop img adjust id_to_char index (rec :: rest) st
     = detect_loop img adjust id_to_char (S index) rest st.
Proof.
  intros partImg Hbad.
  assert (Hv : invalid_crop (rectify img adjust rec) = true).
  { unfold invalid_crop. fold partImg. rewrite Z.gtb_ltb.
    destruct (Z.ltb_spec (shape0 partImg) 1); [reflexivity|].
    destruct (Z.ltb_spec (shape1 partImg) 1); [reflexivity|].
    destruct (Z.ltb_spec (shape1 partImg) (shape0 partImg)); [reflexivity|]. lia. }
  split.
  - apply detect_region_invalid, Hv.
  - cbn [detect_loop]. rewrite detect_region_invalid by exact Hv. reflexivity.
Qed.

(** C3. Every key of the dictionary returned by [detect] is the position
    of its region in the detection output, so it is below the number of
    detections and holds that very region; a region that was dropped
    leaves its position without a key. *)
Theorem C3_keys_are_detection_indices `{Collaborators} (image_path : string)
    (adjust : bool) (id_to_char : gmap nat string)
    (res : gmap nat entry) :
  detect image_path adjust id_to_char = Ok res ->
  let text_recs := fst (ctpn_predict image_path) in
  let img := snd (ctpn_predict image_path) in
  (forall (k : nat) (rec : text_rec) (text : string * PIL.image payload),
     res !! k = Some (rec, text) ->
     text_recs !! k = Some rec /\ (k < length text_recs)%nat)
  /\ (forall (k : nat) (rec : text_rec),
        text_recs !! k = Some rec ->
        invalid_crop (rectify img adjust rec) = true ->
        res !! k = None).
Proof.
  intros Hdet text_recs img. subst text_recs img.
  unfold detect, detect_run in Hdet.
  destruct (ctpn_predict image_path) as [recs0 img0]. cbn [fst snd].
  destruct (detect_loop img0 adjust id_to_char 0 recs0 _) as [st|e] eqn:Hloop;
    [|discriminate].
  cbn [mbind result_bind] in Hdet. injection Hdet as <-. split.
  - intros k rec text Hk.
    destruct (detect_loop_entry _ _ _ _ _ _ _ _ Hloop Hk) as [Hrec _].
    split; [exact Hrec|]. apply lookup_lt_Some in Hrec. exact Hrec.
  - intros k rec Hrec Hbad.
    destruct (detect_loop_lookup _ _ _ _ 0 _ st Hloop k) as [_ Hin].
    specialize (Hin rec ltac:(lia)). rewrite Nat.sub_0_r in Hin.
    specialize (Hin Hrec). rewrite Hbad in Hin. rewrite Hin. apply lookup_empty.
Qed.


(** C4. In loose-crop mode on the region [rec_slanted], the two numbers
    handed to [atan2] are 4 and 109: the angle passed to the rectifier is
    neither the angle of the top edge that [CTPN.predict] draws for this
    region nor the angle between the corners [(rec[0], rec[1])] and
    [(rec[2], rec[1])], which is zero; without [adjust] the angle of the
    same region is zero although its drawn top edge is not level. *)
Theorem C4_angle_is_not_the_top_edge :
  let rec := Demo.rec_slanted in
  let c := crop_corners true 300 200 rec in
  pt1 c = (1, 6) /\ pt2 c = (110, 10)
  /\ angle_args c = (4, 109)
  /\ degree_of c <> edge_angle (quad_top_left rec) (quad_top_right rec)
  /\ degree_of c <> edge_angle (box_top_left rec) (box_top_right rec)
  /\ edge_angle (box_top_left rec) (box_top_right rec) = 0%R
  /\ degree_of (crop_corners false 300 200 rec) = 0%R
  /\ edge_angle (quad_top_left rec) (quad_top_right rec) <> 0%R.
Proof.
  intros rec c.
  assert (Hcode : degree_of c = degrees (atan (4 / 109))).
  { unfold degree_of. change (angle_args c) with (4, 109). cbn [fst snd].
    rewrite atan2_pos by lra. reflexivity. }
  assert (Hquad : edge_angle (quad_top_left rec) (quad_top_right rec)
                  = degrees (atan (20 / 100))).
  { unfold edge_angle. cbn [quad_top_left quad_top_right rec Demo.rec_slanted
                            rec0 rec1 rec2 rec3 fst snd].
    change (30 - 10) with 20. change (110 - 10) with 100.
    rewrite atan2_pos by lra. reflexivity. }
  assert (Hbox : edge_angle (box_top_left rec) (box_top_right rec) = 0%R).
  { unfold edge_angle. cbn [box_top_left box_top_right rec Demo.rec_slanted
                            rec0 rec1 rec2 rec3 fst snd].
    change (10 - 10) with 0. change (110 - 10) with 100.
    rewrite atan2_0_pos by lra. apply degrees_0. }
  assert (Hpos : (0 < degrees (atan (4 / 109)))%R).
  { rewrite <- degrees_0. apply degrees_lt. rewrite <- atan_0.
    apply atan_increasing. lra. }
  assert (Hlt : (degrees (atan (4 / 109)) < degrees (atan (20 / 100)))%R).
  { apply degrees_lt, atan_increasing. lra. }
  split; [reflexivity|]. split; [reflexivity|]. split; [reflexivity|].
  rewrite Hcode, Hquad, Hbox.
  split; [lra|]. split; [lra|]. split; [reflexivity|]. split.
  - apply degree_of_level; cbn; lia.
  - lra.
Qed.

(* ================================================================== *)
(** * The theorems at work on the small instance                       *)
(* ================================================================== *)

Example demo_argmax : DenseNetOCR.argmax Demo.blank_row = 2%nat.
Proof. reflexivity. Qed.

Example demo_ctc_decode : DenseNetOCR.ctc_decode Demo.y_AAbA = [0; 0]%nat.
Proof. reflexivity. Qed.

Example demo_slice_negative_stop : slice_index 100 (-5) = 95.
Proof. reflexivity. Qed.

Example demo_select_proposals :
  CTPN.select_proposals Demo.bbox Demo.cls_prod1
  = Ok ([CTPN.mk_ibox 0 10 15 40], [9 # 10]%Q).
Proof. vm_compute. reflexivity. Qed.

Lemma C2_invalid_crop_skipped_witness :
  let st := {| results := ∅; ocr_calls := [] |} in
  detect_region Demo.img false Demo.id_to_char 1 Demo.rec_tall st = Ok st
  /\ detect_loop Demo.img false Demo.id_to_char 1 [Demo.rec_tall; Demo.rec_short] st
     = detect_loop Demo.img false Demo.id_to_char 2 [Demo.rec_short] st.
Proof.
  intros st. apply C2_invalid_crop_skipped.
  rewrite demo_rectify_tall. right; right. vm_compute. reflexivity.
Defined.

Lemma C3_keys_are_detection_indices_witness :
  (forall (k : nat) (rec : text_rec) (text : string * PIL.image unit),
     Demo.results !! k = Some (rec, text) ->
     Demo.text_recs !! k = Some rec /\ (k < 3)%nat)
  /\ (forall (k : nat) (rec : text_rec),
        Demo.text_recs !! k = Some rec ->
        invalid_crop (rectify Demo.img false rec) = true ->
        Demo.results !! k = None).
Proof.
  exact (C3_keys_are_detection_indices "demo.jpg" false Demo.id_to_char
           Demo.results demo_detect).
Defined.

Lemma C6_best_path_decoding_witness :
  DenseNetOCR.join_chars Demo.id_to_char (DenseNetOCR.ctc_decode Demo.y_AAbA)
  = Ok "AA"%string
  /\ DenseNetOCR.join_chars Demo.id_to_char (DenseNetOCR.ctc_decode Demo.y_blank)
     = Ok EmptyString.
Proof.
  destruct (C6_best_path_decoding Demo.y_AAbA Demo.id_to_char) as [_ [_ [_ HA]]].
  destruct (C6_best_path_decoding Demo.y_blank Demo.id_to_char) as [_ [_ [Hblank _]]].
  split.
  - apply (HA 0%nat "A"%string); [vm_compute; lia|reflexivity|reflexivity].
  - apply Hblank. vm_compute. repeat constructor.
Defined.

Lemma C7_crop_inside_canvas_witness :
  let canvas := rotated_canvas Demo.img 30 in
  let imgOut := dumpRotateImage Demo.img 30 (10, 10) (110, 10) (110, 30) (10, 30) in
  exists row0 row1 col0 col1 : Z,
    imgOut = slice2 canvas row0 row1 col0 col1
    /\ (1 <= row0 /\ row1 <= shape0 canvas - 1
        /\ 1 <= col0 /\ col1 <= shape1 canvas - 1).
Proof.
  intros canvas imgOut.
  destruct (C7_crop_inside_canvas (H := Demo.collaborators) Demo.img 30 (10, 10) (110, 10) (110, 30) (10, 30))
    as [Heq [Hbounds _]]; [cbn; lia|cbn; lia|].
  do 4 eexists. split; [exact Heq|exact Hbounds].
Defined.

Lemma C8_filters_commute_witness :
  CTPN.select_proposals Demo.bbox Demo.cls_prod1
  = CTPN.select_proposals_size_first Demo.bbox Demo.cls_prod1
  /\ CTPN.select_proposals Demo.bbox Demo.cls_prod1
     = Ok (CTPN.masked Demo.bbox Demo.cls_prod1).
Proof. apply C8_filters_commute. reflexivity. Defined.


Lemma C10_upright_without_adjust_witness :
  degree_of (crop_corners false 200 100 Demo.rec_wide) = 0%R
  /\ shape0 (rectify Demo.img false Demo.rec_wide) = 20
  /\ shape1 (rectify Demo.img false Demo.rec_wide) = 100.
Proof.
  destruct (C10_upright_without_adjust (H := Demo.collaborators) Demo.img Demo.rec_wide)
    as [_ [_ [Hdeg [H0 [H1 _]]]]];
    [cbn; lia|cbn; lia|cbn; lia|cbn; lia|intros; reflexivity|].
  split; [exact Hdeg|]. split; [exact H0|exact H1].
Defined.

(* ================================================================== *)
(** * Further properties of [detect]                                   *)
(* ================================================================== *)

Section DetectMore.
Context `{Collaborators}.
Variable img : ndarray pixel.
Variable adjust : bool.
Variable id_to_char : gmap nat string.

(** The recogniser is called once for each region that passes, in the
    order of detection. *)
Lemma detect_loop_ocr_calls (text_recs : list text_rec) :
  forall (index : nat) (st st' : run),
    detect_loop img adjust id_to_char index text_recs st = Ok st' ->
    ocr_calls st'
    = rev (map (strip_of img adjust) (List.filter (passes img adjust) text_recs)) ++ ocr_calls st.
Proof.
  induction text_recs as [|rec rest IH]; intros index st st' Hloop.
  - cbn in Hloop. injection Hloop as <-. reflexivity.
  - cbn [detect_loop] in Hloop.
    destruct (detect_region img adjust id_to_char index rec st) as [st1|e] eqn:Hstep;
      [|discriminate].
    cbn [mbind result_bind] in Hloop. rewrite (IH _ _ _ Hloop).
    cbn [List.filter]. unfold passes at 2.
    destruct (detect_region_inv _ _ _ _ _ _ _ Hstep)
      as [[Hv ->]|[Hv [text [_ ->]]]]; rewrite Hv; cbn [negb]; [reflexivity|].
    cbn [map rev ocr_calls]. rewrite <- app_assoc. reflexivity.
Qed.

(** The loop raises the exception of the first region that passes the
    test and on which the recogniser raises. *)
Lemma detect_loop_raises (before after : list text_rec) (rec : text_rec) (e : exn) :
  Forall (fun r => passes img adjust r = true -> exists text, text_of img adjust id_to_char r = Ok text)
         before ->
  passes img adjust rec = true ->
  text_of img adjust id_to_char rec = Raise e ->
  forall (index : nat) (st : run),
    detect_loop img adjust id_to_char index (before ++ rec :: after) st = Raise e.
Proof.
  intros Hbefore Hpass Hraise.
  induction Hbefore as [|r before Hr _ IH]; intros index st.
  - cbn [app detect_loop]. unfold detect_region.
    unfold passes in Hpass. apply negb_true_iff in Hpass. rewrite Hpass.
    fold (strip_of img adjust rec). fold (text_of img adjust id_to_char rec).
    rewrite Hraise. reflexivity.
  - cbn [app detect_loop].
    destruct (invalid_crop (rectify img adjust r)) eqn:Hv.
    + rewrite detect_region_invalid by exact Hv. cbn [mbind result_bind]. apply IH.
    + destruct Hr as [text Htext]; [unfold passes; now rewrite Hv|].
      rewrite (detect_region_valid _ _ _ _ _ _ text) by assumption.
      cbn [mbind result_bind]. apply IH.
Qed.

End DetectMore.

(** X1. When [detect] returns, the keys of its dictionary are exactly the
    positions of the regions whose strip passes the test of line 79: the
    decoded text plays no part. *)
Theorem detect_keys_iff_passes `{Collaborators} (image_path : string)
    (adjust : bool) (id_to_char : gmap nat string) (res : gmap nat entry) :
  detect image_path adjust id_to_char = Ok res ->
  forall k : nat,
    is_Some (res !! k)
    <-> exists rec, fst (ctpn_predict image_path) !! k = Some rec
                    /\ passes (snd (ctpn_predict image_path)) adjust rec = true.
Proof.
  intros Hdet k. unfold detect, detect_run in Hdet.
  destruct (ctpn_predict image_path) as [recs img]. cbn [fst snd].
  destruct (detect_loop img adjust id_to_char 0 recs _) as [st|e] eqn:Hloop;
    [|discriminate].
  cbn [mbind result_bind] in Hdet. injection Hdet as <-.
  destruct (detect_loop_lookup _ _ _ _ 0 _ st Hloop k) as [Hout Hin].
  cbn [results] in Hout, Hin. unfold passes. split.
  - intros [[rec text] Hk].
    destruct (detect_loop_entry _ _ _ _ _ _ _ _ Hloop Hk) as [Hrec [Hv _]].
    exists rec. split; [exact Hrec|]. now rewrite Hv.
  - intros [rec [Hrec Hv]]. apply negb_true_iff in Hv.
    specialize (Hin rec ltac:(lia)). rewrite Nat.sub_0_r in Hin.
    specialize (Hin Hrec). rewrite Hv in Hin.
    destruct Hin as [text [_ Hk]]. rewrite Hk. eexists; reflexivity.
Qed.

(** X2. [detect] has no partial result: when the recogniser raises on a
    region that passes the test, and returned on every passing region
    before it, [detect] raises that exception and the entries already
    gathered are lost. *)
Theorem detect_raises_first_failure `{Collaborators} (image_path : string)
    (adjust : bool) (id_to_char : gmap nat string)
    (before after : list text_rec) (rec : text_rec) (e : exn) :
  let img := snd (ctpn_predict image_path) in
  fst (ctpn_predict image_path) = before ++ rec :: after ->
  Forall (fun r => passes img adjust r = true ->
                   exists text, text_of img adjust id_to_char r = Ok text) before ->
  passes img adjust rec = true ->
  text_of img adjust id_to_char rec = Raise e ->
  detect image_path adjust id_to_char = Raise e.
Proof.
  intros img Hrecs Hbefore Hpass Hraise. subst img.
  unfold detect, detect_run.
  destruct (ctpn_predict image_path) as [recs img]. cbn [fst snd] in *. subst recs.
  rewrite (detect_loop_raises img adjust id_to_char before after rec e) by assumption.
  reflexivity.
Qed.

(** X3. In a run of [detect] that returns, [self.ocr.predict] is called
    exactly once for each region that passes the test, in the order of
    detection, and for no other region. *)
Theorem detect_run_ocr_calls `{Collaborators} (image_path : string)
    (adjust : bool) (id_to_char : gmap nat string) (st : run) :
  detect_run image_path adjust id_to_char = Ok st ->
  let text_recs := fst (ctpn_predict image_path) in
  let img := snd (ctpn_predict image_path) in
  rev (ocr_calls st)
  = map (strip_of img adjust) (List.filter (passes img adjust) text_recs).
Proof.
  intros Hrun text_recs img. subst text_recs img. unfold detect_run in Hrun.
  destruct (ctpn_predict image_path) as [recs img]. cbn [fst snd].
  rewrite (detect_loop_ocr_calls _ _ _ _ _ _ _ Hrun). cbn [ocr_calls].
  rewrite app_nil_r. apply rev_involutive.
Qed.

Lemma slice_length_inner (n a b : Z) :
  1 <= a -> a <= b -> b <= n - 1 ->
  Z.max 0 (slice_index n b - slice_index n a) = b - a.
Proof.
  intros Ha Hab Hb. unfold slice_index.
  destruct (Z.ltb_spec a 0); destruct (Z.ltb_spec b 0); lia.
Qed.

Lemma slice_length_bound (n start stop : Z) :
  0 <= n -> 1 <= start -> stop <= n - 1 ->
  0 <= Z.max 0 (slice_index n stop - slice_index n start) <= Z.max 0 (n - 2).
Proof.
  intros Hn Hs He. unfold slice_index.
  destruct (Z.ltb_spec start 0); destruct (Z.ltb_spec stop 0); lia.
Qed.

(** X4. Without [adjust], a region that lies inside the image (at least
    one pixel from the left and top border, at least two from the right
    and bottom border) yields a strip of [rec[3] - rec[1]] rows and
    [rec[2] - rec[0]] columns; it is dropped exactly when that height is
    zero or exceeds that width. *)
Theorem rectify_upright_shape `{Collaborators} (img : ndarray pixel) (rec : text_rec) :
  1 <= rec0 rec -> rec0 rec < rec2 rec -> rec2 rec <= shape1 img - 2 ->
  1 <= rec1 rec -> rec1 rec <= rec3 rec -> rec3 rec <= shape0 img - 2 ->
  let partImg := rectify img false rec in
  shape0 partImg = rec3 rec - rec1 rec
  /\ shape1 partImg = rec2 rec - rec0 rec
  /\ (invalid_crop partImg = true
      <-> rec3 rec - rec1 rec < 1 \/ rec2 rec - rec0 rec < rec3 rec - rec1 rec).
Proof.
  intros Hl Hlr Hr Ht Htb Hb partImg.
  assert (Hshape : shape0 partImg = rec3 rec - rec1 rec
                   /\ shape1 partImg = rec2 rec - rec0 rec).
  { unfold partImg. rewrite rectify_upright by lia.
    unfold slice2, Cv2.warpAffine. cbn [shape0 shape1 fst snd].
    rewrite (Z.max_r 1 (rec1 rec)), (Z.min_r (shape0 img - 2) (rec3 rec)),
      (Z.max_r 1 (rec0 rec)), (Z.min_l (rec2 rec) (shape1 img - 2)) by lia.
    rewrite !slice_length_inner by lia. split; reflexivity. }
  destruct Hshape as [H0 H1]. split; [exact H0|]. split; [exact H1|].
  unfold invalid_crop. rewrite H0, H1, Z.gtb_ltb.
  rewrite !orb_true_iff, !Z.ltb_lt. lia.
Qed.

(** X5. Whatever the angle, the rotated canvas of an image of [h] rows
    and [w] columns has between 0 and [h + w] rows and columns, and the
    strip cut from it has at most [ydim - 2] rows and [xdim - 2] columns
    (none when the canvas is that small). *)
Theorem rotated_canvas_bounds `{Collaborators} (img : ndarray pixel) (degree : R)
    (p1 p2 p3 p4 : Z * Z) :
  0 <= shape0 img -> 0 <= shape1 img ->
  let canvas := rotated_canvas img degree in
  let imgOut := dumpRotateImage img degree p1 p2 p3 p4 in
  0 <= shape0 canvas <= shape0 img + shape1 img
  /\ 0 <= shape1 canvas <= shape0 img + shape1 img
  /\ 0 <= shape0 imgOut <= Z.max 0 (shape0 canvas - 2)
  /\ 0 <= shape1 imgOut <= Z.max 0 (shape1 canvas - 2).
Proof.
  intros Hh Hw canvas imgOut.
  destruct (rotated_canvas_shape img degree Hh Hw) as [Hy Hx]. fold canvas in Hy, Hx.
  assert (Hint : forall a b s c : R,
             (0 <= a)%R -> (0 <= b)%R -> (Rabs s <= 1)%R -> (Rabs c <= 1)%R ->
             (IZR (int (a * Rabs s + b * Rabs c)) <= b + a)%R).
  { intros a b s c Ha Hb Hs Hc.
    assert (0 <= a * Rabs s + b * Rabs c)%R
      by (apply Rplus_le_le_0_compat; apply Rmult_le_pos; try assumption; apply Rabs_pos).
    unfold int. destruct (Rle_dec 0 (a * Rabs s + b * Rabs c)) as [_|Hn]; [|contradiction].
    pose proof (Zfloor_bound (a * Rabs s + b * Rabs c)) as [Hfl _].
    pose proof (Rabs_pos s). pose proof (Rabs_pos c). nra. }
  assert (Hsin : forall x, (Rabs (sin x) <= 1)%R).
  { intros x. apply Rabs_le. destruct (SIN_bound x). split; lra. }
  assert (Hcos : forall x, (Rabs (cos x) <= 1)%R).
  { intros x. apply Rabs_le. destruct (COS_bound x). split; lra. }
  apply IZR_le in Hh as Hh', Hw as Hw'.
  assert (H0 : shape0 canvas <= shape0 img + shape1 img).
  { apply le_IZR. rewrite plus_IZR.
    unfold canvas, rotated_canvas, rotation_matrix, Cv2.warpAffine. cbn [shape0 fst snd].
    apply Hint; auto. }
  assert (H1 : shape1 canvas <= shape0 img + shape1 img).
  { apply le_IZR. rewrite plus_IZR, Rplus_comm.
    unfold canvas, rotated_canvas, rotation_matrix, Cv2.warpAffine. cbn [shape1 fst snd].
    apply Hint; auto. }
  split; [lia|]. split; [lia|].
  unfold imgOut, dumpRotateImage. fold canvas.
  unfold slice2. cbn [shape0 shape1].
  split; apply slice_length_bound; lia.
Qed.

Lemma degrees_PI2 : degrees (PI / 2) = 90%R.
Proof. unfold degrees. field. apply PI_neq0. Qed.

Lemma degrees_opp (x : R) : degrees (- x) = (- degrees x)%R.
Proof. unfold degrees. field. apply PI_neq0. Qed.

(** X6. When [pt2] lies to the right of [pt1], the angle of line 75 is
    strictly between -90 and 90 degrees; it is zero exactly when the two
    points have the same y and positive exactly when [pt2] has the larger
    y. *)
Theorem degree_of_range (c : corners) :
  fst (pt1 c) < fst (pt2 c) ->
  (-90 < degree_of c < 90)%R
  /\ (degree_of c = 0%R <-> snd (pt1 c) = snd (pt2 c))
  /\ ((0 < degree_of c)%R <-> snd (pt1 c) < snd (pt2 c)).
Proof.
  intros Hx. unfold degree_of, angle_args. cbn [fst snd].
  set (dy := snd (pt2 c) - snd (pt1 c)). set (dx := fst (pt2 c) - fst (pt1 c)).
  assert (Hdx : (0 < IZR dx)%R) by (apply IZR_lt; unfold dx; lia).
  rewrite atan2_pos by exact Hdx.
  set (t := (IZR dy / IZR dx)%R).
  assert (Hsign : forall z : Z, 0 < z -> (0 < IZR z / IZR dx)%R).
  { intros z Hz. apply Rdiv_lt_0_compat; [apply IZR_lt|]; assumption. }
  assert (Hpos : 0 < dy -> (0 < degrees (atan t))%R).
  { intros Hy. rewrite <- degrees_0, <- atan_0. apply degrees_lt, atan_increasing.
    apply Hsign, Hy. }
  assert (Hneg : dy < 0 -> (degrees (atan t) < 0)%R).
  { intros Hy. rewrite <- degrees_0, <- atan_0. apply degrees_lt, atan_increasing.
    unfold t. replace (IZR dy / IZR dx)%R with (- (IZR (- dy) / IZR dx))%R
      by (rewrite opp_IZR; field; lra).
    pose proof (Hsign (- dy) ltac:(lia)). lra. }
  assert (Hzero : dy = 0 -> degrees (atan t) = 0%R).
  { intros Hy. unfold t. rewrite Hy. unfold Rdiv. rewrite Rmult_0_l, atan_0.
    apply degrees_0. }
  destruct (atan_bound t) as [Hlo Hhi].
  apply degrees_lt in Hlo, Hhi.
  replace (- PI / 2)%R with (- (PI / 2))%R in Hlo by field.
  rewrite degrees_opp in Hlo. rewrite degrees_PI2 in Hlo, Hhi.
  split; [split; lra|].
  destruct (Z.lt_trichotomy dy 0) as [Hy|[Hy|Hy]].
  - specialize (Hneg Hy). split; split; intros; unfold dy in *; try lia; lra.
  - specialize (Hzero Hy). split; split; intros; unfold dy in *; try lia; lra.
  - specialize (Hpos ltac:(lia)). split; split; intros; unfold dy in *; try lia; lra.
Qed.

(* ================================================================== *)
(** * Further properties of the recogniser                             *)
(* ================================================================== *)

Section DecoderMore.
Import DenseNetOCR.

(** The scan of [argmax] keeps the first largest entry seen so far. *)
Lemma argmax_from_spec (row seen : list Q) (best : Q) (best_i : nat) :
  seen !! best_i = Some best ->
  (forall i x, seen !! i = Some x -> (x <= best)%Q) ->
  (forall i x, (i < best_i)%nat -> seen !! i = Some x -> (x < best)%Q) ->
  let a := argmax_from best_i best (length seen) row in
  exists m,
    (seen ++ row) !! a = Some m
    /\ (forall i x, (seen ++ row) !! i = Some x -> (x <= m)%Q)
    /\ (forall i x, (i < a)%nat -> (seen ++ row) !! i = Some x -> (x < m)%Q).
Proof.
  revert seen best best_i. induction row as [|p rest IH];
    intros seen best best_i Hbest Hmax Hfirst.
  - cbn. rewrite app_nil_r. exists best. repeat split; assumption.
  - cbn [argmax_from]. cbv zeta.
    assert (Hlen : length (seen ++ [p]) = S (length seen))
      by (rewrite length_app; cbn; lia).
    destruct (Qle_bool p best) eqn:Hle.
    + apply Qle_bool_iff in Hle.
      specialize (IH (seen ++ [p]) best best_i).
      rewrite Hlen, <- app_assoc in IH. cbn [app] in IH. apply IH.
      * rewrite lookup_app_l; [exact Hbest|]. now apply lookup_lt_Some in Hbest.
      * intros i x Hi. apply lookup_app_Some in Hi as [Hi|[_ Hi]]; [eauto|].
        apply list_lookup_singleton_Some in Hi as [_ <-]. exact Hle.
      * intros i x Hlt Hi. apply lookup_lt_Some in Hbest.
        rewrite lookup_app_l in Hi by lia. eauto.
    + assert (Hlt : (best < p)%Q).
      { apply Qnot_le_lt. intros Hc. apply Qle_bool_iff in Hc. congruence. }
      specialize (IH (seen ++ [p]) p (length seen)).
      rewrite Hlen, <- app_assoc in IH. cbn [app] in IH. apply IH.
      * rewrite lookup_app_r by lia. now rewrite Nat.sub_diag.
      * intros i x Hi. apply lookup_app_Some in Hi as [Hi|[_ Hi]].
        -- apply Qlt_le_weak. eapply Qle_lt_trans; [eapply Hmax, Hi|exact Hlt].
        -- apply list_lookup_singleton_Some in Hi as [_ <-]. apply Qle_refl.
      * intros i x Hi Hx. rewrite lookup_app_l in Hx by lia.
        eapply Qle_lt_trans; [eapply Hmax, Hx|exact Hlt].
Qed.

Lemma argmax_lt_length (row : list Q) : row <> [] -> (argmax row < length row)%nat.
Proof.
  destruct row as [|p rest]; [congruence|]. intros _. cbn [argmax].
  destruct (argmax_from_spec rest [p] p 0) as [m [Hm _]];
    [reflexivity| |intros; lia|].
  - intros [|i] x Hi; [injection Hi as <-; apply Qle_refl|discriminate].
  - cbn in Hm. apply lookup_lt_Some in Hm. exact Hm.
Qed.

(** What the decoder loop emits is never the blank, is a class of some
    time step, and is no longer than the sequence. *)
Lemma greedy_emit_facts (blank : nat) (path : list nat) :
  forall prev : option nat,
    Forall (fun c => c <> blank /\ c ∈ path) (greedy_emit blank prev path)
    /\ (length (greedy_emit blank prev path) <= length path)%nat.
Proof.
  induction path as [|c rest IH]; intros prev; [split; [constructor|cbn; lia]|].
  cbn [greedy_emit]. destruct (IH (Some c)) as [Hall Hlen].
  assert (Hall' : Forall (fun x => x <> blank /\ x ∈ c :: rest)
                         (greedy_emit blank (Some c) rest)).
  { eapply Forall_impl; [exact Hall|]. intros x [Hx Hin]. split; [exact Hx|].
    apply elem_of_cons. now right. }
  destruct (Nat.eqb_spec c blank) as [Heq|Hne]; cbn [negb andb].
  - split; [exact Hall'|cbn; lia].
  - destruct (bool_decide (prev = Some c)); cbn [negb].
    + split; [exact Hall'|cbn; lia].
    + split; [|cbn; lia]. constructor; [|exact Hall'].
      split; [exact Hne|apply elem_of_cons; now left].
Qed.

(** On a matrix whose rows all hold [n] probabilities, every decoded
    class is below [n - 1], the blank. *)
Lemma ctc_decode_below_blank (y_pred : list (list Q)) (n : nat) :
  (1 <= n)%nat ->
  Forall (fun row => length row = n) y_pred ->
  Forall (fun c => (c < n - 1)%nat) (ctc_decode y_pred).
Proof.
  intros Hn Hrows. unfold ctc_decode.
  destruct (greedy_emit_facts (blank_of y_pred) (map argmax y_pred) None) as [Hall _].
  eapply Forall_impl; [exact Hall|]. intros c [Hc Hin].
  apply list_elem_of_fmap in Hin as [row [-> Hrow]].
  assert (Hlen : length row = n) by (eapply Forall_forall in Hrows; eauto).
  assert (Hblank : blank_of y_pred = (n - 1)%nat).
  { unfold blank_of. destruct y_pred as [|r0 rest]; [inversion Hrow|].
    cbn [hd]. apply Forall_cons in Hrows as [Hr0 _]. now rewrite Hr0. }
  assert (Hlt : (argmax row < length row)%nat).
  { apply argmax_lt_length. intros ->. cbn in Hlen. lia. }
  rewrite Hblank in Hc. lia.
Qed.

(** The dictionary look-up stops at the first class without a
    character. *)
Lemma join_chars_missing (id_to_char : gmap nat string) (pre post : list nat) (x : nat) :
  Forall (fun c => is_Some (id_to_char !! c)) pre ->
  id_to_char !! x = None ->
  join_chars id_to_char (pre ++ x :: post) = Raise (KeyError x).
Proof.
  intros Hpre Hx. unfold join_chars.
  assert (Hfe : for_each (getitem id_to_char) (pre ++ x :: post) = Raise (KeyError x)).
  { induction Hpre as [|c pre [s Hs] _ IH]; cbn [app for_each]; unfold getitem in *.
    - rewrite Hx. reflexivity.
    - rewrite Hs. cbn [mbind result_bind]. rewrite IH. reflexivity. }
  rewrite Hfe. reflexivity.
Qed.

End DecoderMore.

(** X7. [argmax] of a non-empty row is a position of the row, the entry
    there is at least every entry of the row, and every entry before it
    is strictly smaller: ties go to the first position. *)
Theorem argmax_first_maximum (row : list Q) :
  row <> [] ->
  exists m,
    row !! DenseNetOCR.argmax row = Some m
    /\ (forall i x, row !! i = Some x -> (x <= m)%Q)
    /\ (forall i x, (i < DenseNetOCR.argmax row)%nat -> row !! i = Some x -> (x < m)%Q).
Proof.
  destruct row as [|p rest]; [congruence|]. intros _. cbn [DenseNetOCR.argmax].
  apply (argmax_from_spec rest [p] p 0); [reflexivity| |intros; lia].
  intros [|i] x Hi; [injection Hi as <-; apply Qle_refl|discriminate].
Qed.

(** X8. On a probability matrix with [n] classes in every row, the
    decoder emits only classes below [n - 1], so never the blank and never
    an index outside the matrix, and no more classes than there are time
    steps. *)
Theorem ctc_decode_valid_classes (y_pred : list (list Q)) (n : nat) :
  (1 <= n)%nat ->
  Forall (fun row => length row = n) y_pred ->
  Forall (fun c => (c < n - 1)%nat) (DenseNetOCR.ctc_decode y_pred)
  /\ (length (DenseNetOCR.ctc_decode y_pred) <= length y_pred)%nat.
Proof.
  intros Hn Hrows. split; [now apply ctc_decode_below_blank|].
  unfold DenseNetOCR.ctc_decode.
  destruct (greedy_emit_facts (DenseNetOCR.blank_of y_pred)
              (map DenseNetOCR.argmax y_pred) None) as [_ Hlen].
  now rewrite length_map in Hlen.
Qed.

(** X9. When the decoder emits a class that has no entry in
    [id_to_char], [predict] raises [KeyError] with the first such class
    and returns neither text nor image. *)
Theorem predict_raises_KeyError `{Collaborators} (image : DenseNetOCR.image_arg)
    (img : PIL.image payload) (id_to_char : gmap nat string)
    (pre post : list nat) (x : nat) :
  DenseNetOCR.as_image image = Ok img ->
  0 < snd (PIL.size img) ->
  snd (PIL.size img) <= 32 * fst (PIL.size img) ->
  DenseNetOCR.ctc_decode (base_model_predict (DenseNetOCR.resized img))
  = pre ++ x :: post ->
  Forall (fun c => is_Some (id_to_char !! c)) pre ->
  id_to_char !! x = None ->
  DenseNetOCR.predict image id_to_char = Raise (KeyError x).
Proof.
  intros Himg Hh Hw Hdec Hpre Hx.
  rewrite (predict_unfold image img) by assumption.
  rewrite Hdec, join_chars_missing by assumption. reflexivity.
Qed.


(** X11. The width [w] that [predict] resizes to keeps the aspect ratio
    at height 32 up to rounding down: it is the largest integer with
    [w * height <= 32 * width]. *)
Theorem scaled_width_aspect (width height : Z) :
  0 <= width -> 0 < height ->
  exists w : Z,
    DenseNetOCR.scaled_width (width, height) = Ok w
    /\ w * height <= 32 * width < (w + 1) * height.
Proof.
  intros Hw Hh. unfold DenseNetOCR.scaled_width. cbn [fst snd].
  destruct (Z.eqb_spec height 0) as [Hz|_]; [lia|].
  eexists. split; [reflexivity|].
  rewrite Z.quot_div_nonneg by lia.
  pose proof (Z.div_mod (32 * width) height ltac:(lia)).
  pose proof (Z.mod_pos_bound (32 * width) height Hh). nia.
Qed.

(* ================================================================== *)
(** * Further properties of the proposal filter                        *)
(* ================================================================== *)

(** Gathering with indices inside the array never raises and picks
    elements of the array, whatever is mapped over it. *)
Lemma take_map_in_range {A} (l : list A) (idx : list nat) :
  Forall (fun i => (i < length l)%nat) idx ->
  exists picked : list A,
    Forall (fun x => x ∈ l) picked
    /\ forall (B : Type) (g : A -> B), take (map g l) idx = Ok (map g picked).
Proof.
  induction 1 as [|i idx Hi _ [picked [Hin Htake]]].
  - exists []. split; [constructor|reflexivity].
  - destruct (lookup_lt_is_Some_2 l i Hi) as [x Hx].
    exists (x :: picked). split.
    + constructor; [|exact Hin]. eapply list_elem_of_lookup_2, Hx.
    + intros B g. unfold take in *. cbn [for_each].
      rewrite list_lookup_fmap, Hx. cbn [fmap option_fmap option_map mbind result_bind].
      rewrite Htake. reflexivity.
Qed.

(** X12. Whatever index filter stands for [utils.filter_bbox], as long
    as it answers with positions inside the array it is given: on as many
    scores as boxes, lines 152 to 163 of [CTPN.predict] raise nothing,
    return as many scores as boxes, and every returned box is the integer
    cast of an input box whose own score, above 0.7, is the score returned
    with it. *)
Theorem select_proposals_with_paired
    (filter_bbox : list CTPN.ibox -> Z -> list nat)
    (bbox : list CTPN.fbox) (cls_prod1 : list Q) :
  length bbox = length cls_prod1 ->
  (forall l, Forall (fun i => (i < length l)%nat) (filter_bbox l 16)) ->
  exists (boxes : list CTPN.ibox) (scores : list Q),
    CTPNStage.select_proposals_with filter_bbox bbox cls_prod1 = Ok (boxes, scores)
    /\ length boxes = length scores
    /\ forall (k : nat) (b : CTPN.ibox) (s : Q),
         boxes !! k = Some b -> scores !! k = Some s ->
         CTPN.is_fg s = true
         /\ exists (j : nat) (fb : CTPN.fbox),
              bbox !! j = Some fb /\ cls_prod1 !! j = Some s
              /\ b = CTPN.astype_int32_box fb.
Proof.
  intros Hlen Hrange. destruct (zip_fst_snd bbox cls_prod1 Hlen) as [Hb Hs].
  set (rows := zip bbox cls_prod1) in *.
  set (rows1 := List.filter row_is_fg rows).
  destruct (take_map_in_range rows1 (filter_bbox (map row_box rows1) 16))
    as [picked [Hin Htake]].
  { specialize (Hrange (map row_box rows1)). now rewrite length_map in Hrange. }
  exists (map row_box picked), (map snd picked).
  split; [|split].
  - assert (Hrun : CTPNStage.select_proposals_with filter_bbox
                     (map fst rows) (map snd rows)
                   = Ok (map row_box picked, map snd picked)).
    { unfold CTPNStage.select_proposals_with, where_.
      rewrite where_from_map.
      change (fun x : CTPN.fbox * Q => CTPN.is_fg (snd x)) with row_is_fg.
      rewrite (take_where fst row_is_fg rows). cbn [mbind result_bind].
      rewrite (take_where snd row_is_fg rows). cbn [mbind result_bind].
      fold rows1. rewrite map_map.
      change (fun x : CTPN.fbox * Q => CTPN.astype_int32_box (fst x)) with row_box.
      rewrite (Htake _ row_box). cbn [mbind result_bind].
      rewrite (Htake _ snd). reflexivity. }
    rewrite Hb, Hs in Hrun. exact Hrun.
  - now rewrite !length_map.
  - intros k b s Hkb Hks.
    rewrite list_lookup_fmap in Hkb. rewrite list_lookup_fmap in Hks.
    destruct (picked !! k) as [r|] eqn:Hr; [|discriminate].
    cbn in Hkb, Hks. injection Hkb as <-. injection Hks as <-.
    assert (Hr1 : r ∈ rows1).
    { eapply Forall_forall in Hin; [exact Hin|]. eapply list_elem_of_lookup_2, Hr. }
    apply list_elem_of_In, List.filter_In in Hr1 as [Hrows Hfg].
    split; [exact Hfg|].
    apply list_elem_of_In, list_elem_of_lookup_1 in Hrows as [j Hj].
    unfold rows in Hj. apply lookup_zip_with_Some in Hj as [fb [sc [-> [Hfb Hsc]]]].
    exists j, fb. repeat split; assumption.
Qed.

(* ================================================================== *)
(** * The losses                                                       *)
(* ================================================================== *)

Section Losses.
Import RpnLoss.
Local Open Scope Q_scope.

Lemma smooth_l1_small (d : Q) : d < 1 # 9 -> smooth_l1 d == (9 # 2) * (d * d).
Proof.
  intros Hd. unfold smooth_l1, less_one.
  destruct (Qle_bool (1 / sigma) d) eqn:E.
  - apply Qle_bool_iff in E. assert (Hs : (1 / sigma) == (1 # 9)) by reflexivity. rewrite Hs in E. lra.
  - assert ((Qabs (1 - 1)) == 0) as -> by reflexivity.
    assert (sigma == 9) as -> by reflexivity. ring.
Qed.

Lemma smooth_l1_large (d : Q) : 1 # 9 <= d -> smooth_l1 d == d - (1 # 18).
Proof.
  intros Hd. unfold smooth_l1, less_one.
  destruct (Qle_bool (1 / sigma) d) eqn:E.
  - assert ((Qabs (1 - 0)) == 1) as -> by reflexivity.
    assert (((1 # 2) / sigma) == (1 # 18)) as -> by reflexivity. ring.
  - assert (Hc : Qle_bool (1 / sigma) d = true).
    { apply Qle_bool_iff. assert ((1 / sigma) == (1 # 9)) as -> by reflexivity. exact Hd. }
    congruence.
Qed.

Lemma smooth_l1_nonneg d : 0 <= d -> 0 <= smooth_l1 d.
Proof.
  intros Hd. destruct (Qlt_le_dec d (1 # 9)) as [H|H].
  - rewrite smooth_l1_small by exact H. nra.
  - rewrite smooth_l1_large by exact H. lra.
Qed.

Lemma smooth_l1_zero d : 0 <= d -> (smooth_l1 d == 0 <-> d == 0).
Proof.
  intros Hd. destruct (Qlt_le_dec d (1 # 9)) as [H|H].
  - rewrite smooth_l1_small by exact H. split; intros E.
    + assert (d * d == 0) by lra. nra.
    + rewrite E. ring.
  - rewrite smooth_l1_large by exact H. split; intros E; lra.
Qed.

Lemma smooth_l1_mono a b : 0 <= a -> a <= b -> smooth_l1 a <= smooth_l1 b.
Proof.
  intros Ha Hab. destruct (Qlt_le_dec a (1 # 9)) as [H|H]; destruct (Qlt_le_dec b (1 # 9)) as [H'|H'].
  - rewrite !smooth_l1_small by assumption. nra.
  - rewrite smooth_l1_small, smooth_l1_large by assumption. nra.
  - lra.
  - rewrite !smooth_l1_large by assumption. lra.
Qed.

Lemma Qsum_nonneg (l : list Q) : Forall (fun x => 0 <= x) l -> 0 <= Qsum l.
Proof.
  induction 1 as [|x l Hx _ IH]; [apply Qle_refl|].
  change (Qsum (x :: l)) with (x + Qsum l). lra.
Qed.

Lemma Qsum_zero (l : list Q) :
  Forall (fun x => 0 <= x) l -> (Qsum l == 0 <-> Forall (fun x => x == 0) l).
Proof.
  induction 1 as [|x l Hx Hl IH].
  - split; [constructor|reflexivity].
  - change (Qsum (x :: l)) with (x + Qsum l).
    pose proof (Qsum_nonneg l Hl). split.
    + intros Hs. constructor; [lra|]. apply IH. lra.
    + intros Hall. apply Forall_cons in Hall as [Hx0 Hl0]. apply IH in Hl0. lra.
Qed.

Lemma zip_with_map_same {A B C D} (f : B -> C -> D) (g : A -> B) (h : A -> C)
    (l : list A) :
  zip_with f (map g l) (map h l) = map (fun x => f (g x) (h x)) l.
Proof. induction l as [|x l IH]; cbn; [reflexivity|]. now rewrite IH. Qed.

Lemma zip_rows {A B} (rows : list (A * B)) : zip (map fst rows) (map snd rows) = rows.
Proof. induction rows as [|[a b] rows IH]; cbn; [reflexivity|]. now rewrite IH. Qed.

(** A filter sees only the rows it keeps. *)
Lemma filter_agree {A} (p : A -> bool) (l l' : list A) :
  Forall2 (fun r r' => p r = p r' /\ (p r = true -> r = r')) l l' ->
  List.filter p l = List.filter p l'.
Proof.
  induction 1 as [|r r' l l' [Hp Hr] _ IH]; cbn; [reflexivity|].
  rewrite <- Hp. destruct (p r) eqn:E; [|exact IH].
  rewrite <- (Hr eq_refl), IH. reflexivity.
Qed.

End Losses.

Section LossTheorems.
Import RpnLoss.
Local Open Scope Q_scope.

Lemma rpn_loss_regr_rows (rows : list (target * (Q * Q))) :
  _rpn_loss_regr (map fst rows) (map snd rows)
  = Ok (let loss := map (fun r => row_loss (t_regr (fst r)) (snd r))
                        (List.filter (fun r => Qeq_bool (t_cls (fst r)) 1) rows) in
        if (0 <? length loss)%nat then Qmean loss else 0).
Proof.
  unfold _rpn_loss_regr, where_. rewrite !map_map, where_from_map.
  rewrite (take_where (fun x => t_regr (fst x)) (fun x => Qeq_bool (t_cls (fst x)) 1) rows).
  cbn [mbind result_bind].
  rewrite (take_where snd (fun x => Qeq_bool (t_cls (fst x)) 1) rows).
  cbn [mbind result_bind]. rewrite zip_with_map_same. reflexivity.
Qed.

Lemma Qabs_zero (x : Q) : Qabs x == 0 <-> x == 0.
Proof. apply Qabs_case; intros; split; intros; lra. Qed.

Lemma row_loss_nonneg (t p : Q * Q) : 0 <= row_loss t p.
Proof.
  unfold row_loss.
  pose proof (smooth_l1_nonneg _ (Qabs_nonneg (fst t - fst p))).
  pose proof (smooth_l1_nonneg _ (Qabs_nonneg (snd t - snd p))). lra.
Qed.

Lemma row_loss_zero (t p : Q * Q) :
  row_loss t p == 0 <-> fst t == fst p /\ snd t == snd p.
Proof.
  unfold row_loss.
  pose proof (smooth_l1_nonneg _ (Qabs_nonneg (fst t - fst p))) as H1.
  pose proof (smooth_l1_nonneg _ (Qabs_nonneg (snd t - snd p))) as H2.
  pose proof (smooth_l1_zero _ (Qabs_nonneg (fst t - fst p))) as Z1.
  pose proof (smooth_l1_zero _ (Qabs_nonneg (snd t - snd p))) as Z2.
  rewrite Qabs_zero in Z1, Z2. split.
  - intros Hs. split.
    + assert (E : smooth_l1 (Qabs (fst t - fst p)) == 0) by lra. apply Z1 in E. lra.
    + assert (E : smooth_l1 (Qabs (snd t - snd p)) == 0) by lra. apply Z2 in E. lra.
  - intros [E1 E2].
    assert (A1 : fst t - fst p == 0) by lra. assert (A2 : snd t - snd p == 0) by lra.
    apply Z1 in A1. apply Z2 in A2. lra.
Qed.

Lemma Qmean_nonneg (l : list Q) :
  l <> [] -> Forall (fun x => 0 <= x) l ->
  0 <= Qmean l /\ (Qmean l == 0 <-> Forall (fun x => x == 0) l).
Proof.
  intros Hne Hall. unfold Qmean.
  assert (Hn : 0 < inject_Z (Z.of_nat (length l))).
  { destruct l as [|q l]; [congruence|].
    change (inject_Z 0 < inject_Z (Z.of_nat (length (q :: l)))).
    rewrite <- Zlt_Qlt. cbn [length]. lia. }
  pose proof (Qsum_nonneg l Hall) as Hs.
  rewrite <- (Qsum_zero l Hall).
  assert (Hinv : 0 < / inject_Z (Z.of_nat (length l))) by (apply Qinv_lt_0_compat, Hn).
  unfold Qdiv. split; [nra|]. split; intros E.
  - assert (Qsum l * / inject_Z (Z.of_nat (length l)) * inject_Z (Z.of_nat (length l)) == 0)
      by (rewrite E; ring).
    rewrite <- Qmult_assoc, (Qmult_comm (/ _)), Qmult_inv_r, Qmult_1_r in H by lra. exact H.
  - rewrite E. ring.
Qed.


(** X14. Anchors whose class is not 1 have no influence on
    [_rpn_loss_regr]: two inputs, given as rows of an anchor with its
    prediction, that have their class-1 anchors at the same positions and
    agree on them give the same loss. *)
Theorem rpn_loss_regr_ignores_other_anchors (rows rows' : list (target * (Q * Q))) :
  Forall2 (fun r r' =>
             Qeq_bool (t_cls (fst r)) 1 = Qeq_bool (t_cls (fst r')) 1
             /\ (Qeq_bool (t_cls (fst r)) 1 = true -> r = r')) rows rows' ->
  _rpn_loss_regr (map fst rows) (map snd rows)
  = _rpn_loss_regr (map fst rows') (map snd rows').
Proof.
  intros Hagree. rewrite !rpn_loss_regr_rows.
  rewrite (filter_agree (fun r : target * (Q * Q) => Qeq_bool (t_cls (fst r)) 1)
             rows rows' Hagree).
  reflexivity.
Qed.


Lemma rpn_loss_cls_rows (xent : Z -> Q * Q -> Q) (rows : list (Q * (Q * Q))) :
  _rpn_loss_cls xent (map fst rows) (map snd rows)
  = Ok (let loss := map (fun r => xent (astype_int64 (fst r)) (snd r))
                        (List.filter (fun r => negb (Qeq_bool (fst r) (-1))) rows) in
        if (0 <? length loss)%nat then clip (Qmean loss) 0 10 else 0).
Proof.
  unfold _rpn_loss_cls, where_. rewrite where_from_map.
  rewrite (take_where fst (fun x : Q * (Q * Q) => negb (Qeq_bool (fst x) (-1))) rows).
  cbn [mbind result_bind].
  rewrite (take_where snd (fun x : Q * (Q * Q) => negb (Qeq_bool (fst x) (-1))) rows).
  cbn [mbind result_bind]. rewrite map_map, zip_with_map_same. reflexivity.
Qed.

(** X16. [_rpn_loss_cls] lies between 0 and 10 whatever the
    cross-entropy of the rows is, and anchors labelled -1 have no
    influence on it. *)
Theorem rpn_loss_cls_clipped (xent : Z -> Q * Q -> Q) (rows rows' : list (Q * (Q * Q))) :
  Forall2 (fun r r' =>
             Qeq_bool (fst r) (-1) = Qeq_bool (fst r') (-1)
             /\ (Qeq_bool (fst r) (-1) = false -> r = r')) rows rows' ->
  _rpn_loss_cls xent (map fst rows) (map snd rows)
  = _rpn_loss_cls xent (map fst rows') (map snd rows')
  /\ exists v : Q,
       _rpn_loss_cls xent (map fst rows) (map snd rows) = Ok v /\ 0 <= v <= 10.
Proof.
  intros Hagree. rewrite !rpn_loss_cls_rows. split.
  - rewrite (filter_agree (fun r : Q * (Q * Q) => negb (Qeq_bool (fst r) (-1))) rows rows').
    + reflexivity.
    + eapply Forall2_impl; [exact Hagree|]. intros r r' [Hk Hr]. split.
      * now rewrite Hk.
      * intros Hkeep. apply Hr. now apply negb_true_iff in Hkeep.
  - eexists. split; [reflexivity|]. cbv zeta.
    destruct (0 <? _)%nat; [|split; [apply Qle_refl|discriminate]].
    unfold clip. split.
    + apply Q.min_glb; [apply Q.le_max_r|discriminate].
    + apply Q.le_min_r.
Qed.

End LossTheorems.

(* ================================================================== *)
(** * Shapes                                                           *)
(* ================================================================== *)

Section ShapeTheorems.
Import Keras DenseNetShape.

Lemma dense_block_spec (nb_layers : nat) :
  forall (x : shape3) (nb_filter growth_rate : Z),
    _dense_block x nb_layers nb_filter growth_rate
    = Some ({| rows := rows x; cols := cols x;
               chans := chans x + Z.of_nat nb_layers * growth_rate |},
            nb_filter + Z.of_nat nb_layers * growth_rate).
Proof.
  induction nb_layers as [|n IH]; intros x nb_filter growth_rate.
  - cbn [_dense_block Z.of_nat]. rewrite Z.mul_0_l, !Z.add_0_r. destruct x; reflexivity.
  - cbn [_dense_block]. unfold _conv_block, concatenate, conv2d_same. cbn [rows cols chans].
    replace ((rows x + 1 - 1) / 1) with (rows x) by (rewrite Z.div_1_r; lia).
    replace ((cols x + 1 - 1) / 1) with (cols x) by (rewrite Z.div_1_r; lia).
    rewrite !Z.eqb_refl. cbn [andb mbind option_bind].
    rewrite IH. cbn [rows cols chans].
    replace (chans x + growth_rate + Z.of_nat n * growth_rate)
      with (chans x + Z.of_nat (S n) * growth_rate) by lia.
    replace (nb_filter + growth_rate + Z.of_nat n * growth_rate)
      with (nb_filter + Z.of_nat (S n) * growth_rate) by lia.
    reflexivity.
Qed.

(** X17. [_dense_block] never fails; it keeps the rows and columns of
    [x], adds [nb_layers * growth_rate] channels, and adds the same amount
    to [nb_filter]: the count it returns stays as far from the real number
    of channels as the count it was given. *)
Theorem dense_block_tracks_channels (x : shape3) (nb_layers : nat)
    (nb_filter growth_rate : Z) :
  exists y nb_filter',
    _dense_block x nb_layers nb_filter growth_rate = Some (y, nb_filter')
    /\ rows y = rows x /\ cols y = cols x
    /\ chans y = chans x + Z.of_nat nb_layers * growth_rate
    /\ nb_filter' = nb_filter + Z.of_nat nb_layers * growth_rate
    /\ nb_filter' - chans y = nb_filter - chans x.
Proof.
  eexists _, _. split; [apply dense_block_spec|]. cbn [rows cols chans].
  repeat split; try reflexivity. lia.
Qed.

Lemma halve_twice (n : Z) : ((n + 2 - 1) / 2 - 2) / 2 + 1 = (n + 1) / 4.
Proof.
  replace (n + 2 - 1) with (n + 1) by lia.
  replace (((n + 1) / 2 - 2) / 2 + 1) with (((n + 1) / 2 - 2 + 1 * 2) / 2)
    by (rewrite Z.div_add by lia; reflexivity).
  replace ((n + 1) / 2 - 2 + 1 * 2) with ((n + 1) / 2) by lia.
  rewrite Z.div_div by lia. reflexivity.
Qed.

Lemma halve_thrice (n : Z) : (((n + 2 - 1) / 2 - 2) / 2 + 1 - 2) / 2 + 1 = (n + 1) / 8.
Proof.
  rewrite halve_twice.
  replace (((n + 1) / 4 - 2) / 2 + 1) with (((n + 1) / 4 - 2 + 1 * 2) / 2)
    by (rewrite Z.div_add by lia; reflexivity).
  replace ((n + 1) / 4 - 2 + 1 * 2) with ((n + 1) / 4) by lia.
  rewrite Z.div_div by lia. reflexivity.
Qed.

Lemma build_model_spec (image_height width image_channels filters num_classes : Z) :
  exists b : build,
    build_model image_height width image_channels filters num_classes = Some b
    /\ chans (fst (block1 b)) = filters + 64 /\ snd (block1 b) = filters + 64
    /\ chans (fst (block2 b)) = 192 /\ snd (block2 b) = 192
    /\ chans (fst (block3 b)) = 192 /\ snd (block3 b) = 192
    /\ rows (fst (block3 b)) = (image_height + 1) / 8
    /\ y_pred_shape b = ((width + 1) / 8, num_classes).
Proof.
  unfold build_model. rewrite dense_block_spec. cbn [mbind option_bind].
  unfold _transition_block. cbn [fst snd]. change (2 =? 2) with true. cbv iota.
  rewrite dense_block_spec. cbn [mbind option_bind fst snd].
  rewrite dense_block_spec. cbn [mbind option_bind fst snd].
  eexists. split; [reflexivity|].
  cbn [block1 block2 block3 y_pred_shape fst snd rows cols chans conv2d_same average_pooling2d].
  rewrite !Z.div_1_r, !Z.add_simpl_r, !halve_thrice.
  change (Z.of_nat 8 * 8) with 64.
  repeat split; try reflexivity; lia.
Qed.


(** X19. Every strip that passes the test of line 79 of [detect] reaches
    the network with height 32 and gives it at least 4 time steps. *)
Theorem strip_time_steps `{Collaborators} (img : ndarray pixel) (adjust : bool)
    (rec : text_rec) (num_classes : Z) :
  passes img adjust rec = true ->
  exists b : build,
    build_model 32 (fst (PIL.size (DenseNetOCR.resized (strip_of img adjust rec))))
      1 64 num_classes = Some b
    /\ snd (PIL.size (DenseNetOCR.resized (strip_of img adjust rec))) = 32
    /\ 4 <= fst (y_pred_shape b)
    /\ snd (y_pred_shape b) = num_classes.
Proof.
  intros Hpass. unfold passes in Hpass. apply negb_true_iff in Hpass.
  destruct (invalid_crop_false _ Hpass) as [H0 H1].
  destruct (build_model_spec 32
              (fst (PIL.size (DenseNetOCR.resized (strip_of img adjust rec))))
              1 64 num_classes) as [b [Hb [_ [_ [_ [_ [_ [_ [_ Hy]]]]]]]]].
  exists b. split; [exact Hb|]. split; [reflexivity|]. rewrite Hy. cbn [fst snd].
  split; [|reflexivity].
  unfold DenseNetOCR.resized, strip_of, DenseNetOCR.convert_L, fromarray.
  cbn [PIL.size fst snd].
  set (h := shape0 (rectify img adjust rec)) in *.
  set (w := shape1 (rectify img adjust rec)) in *.
  assert (32 <= Z.quot (32 * w) h) by (apply Z.quot_le_lower_bound; nia).
  apply Z.div_le_lower_bound; lia.
Qed.

End ShapeTheorems.

Section CtpnShapes.
Import Keras CTPNShape.

Lemma reshape_ok (shape target : list Z) :
  fold_right Z.mul 1 shape = fold_right Z.mul 1 target ->
  reshape shape target = Some target.
Proof. intros E. unfold reshape. rewrite E, Z.eqb_refl. reflexivity. Qed.

(** X20. The three reshapes of the CTPN head are valid for every batch
    size and feature grid: [cls] and [regr] leave [_reshape3] with
    [h * w * 10] rows of 2 per image.  [_reshape3] fails exactly when the
    element count of its input is not that of 20 channels per cell. *)
Theorem ctpn_head_shapes (n h w : Z) :
  head n h w = Some ([n; h * w * 10; 2], [n; h * w * 10; 2])
  /\ forall c : Z,
       _reshape3 [n; h; w; c] = None <-> n * h * w * c <> n * h * w * 20.
Proof.
  split.
  - unfold head, _reshape, _reshape2, _reshape3.
    rewrite (reshape_ok [n; h; w; 512]) by (cbn [fold_right]; ring).
    cbn [mbind option_bind].
    rewrite (reshape_ok [n * h; w; 256]) by (cbn [fold_right]; ring).
    cbn [mbind option_bind].
    rewrite (reshape_ok [n; h; w; 10 * 2]) by (cbn [fold_right]; ring).
    reflexivity.
  - intros c. unfold _reshape3, reshape. cbn [fold_right].
    destruct (Z.eqb_spec (n * (h * (w * (c * 1)))) (n * (h * w * 10 * (2 * 1)))) as [E|E].
    + split; [discriminate|]. intros Hne. exfalso. apply Hne. lia.
    + split; [|reflexivity]. intros _. lia.
Qed.

End CtpnShapes.


(* ================================================================== *)
(** * Configurations                                                   *)
(* ================================================================== *)

Section ConfigTheorems.
Import Config.



Lemma known_true (params : list string) (kwargs : gmap string value) :
  known params kwargs = true <-> forall k, is_Some (kwargs !! k) -> k ∈ params.
Proof.
  unfold known. rewrite bool_decide_eq_true. split.
  - intros Hsub k Hk. apply elem_of_dom in Hk. apply Hsub in Hk.
    now apply elem_of_list_to_set in Hk.
  - intros Hall k Hk. apply elem_of_dom in Hk. apply elem_of_list_to_set. auto.
Qed.



End ConfigTheorems.

(* ================================================================== *)
(** * The further properties at work                                   *)
(* ================================================================== *)

Lemma where_from_in_range {A} (p : A -> bool) (l : list A) (i : nat) :
  Forall (fun k => (k < i + length l)%nat) (where_from p i l).
Proof.
  revert i. induction l as [|x l IH]; intros i; cbn [where_from]; [constructor|].
  assert (Hrest : Forall (fun k => (k < i + length (x :: l))%nat) (where_from p (S i) l)).
  { eapply Forall_impl; [apply IH|]. intros k Hk. cbn in *. lia. }
  destruct (p x); [|exact Hrest]. constructor; [cbn; lia|exact Hrest].
Qed.

Lemma filter_bbox_in_range (l : list CTPN.ibox) (minsize : Z) :
  Forall (fun i => (i < length l)%nat) (CTPN.filter_bbox l minsize).
Proof. apply (where_from_in_range _ l 0). Qed.

Lemma detect_keys_iff_passes_witness :
  is_Some (Demo.results !! 2%nat)
  <-> exists rec, Demo.text_recs !! 2%nat = Some rec
                  /\ passes Demo.img false rec = true.
Proof.
  exact (detect_keys_iff_passes (H := Demo.collaborators) "demo.jpg" false
           Demo.id_to_char Demo.results demo_detect 2%nat).
Defined.

Lemma detect_raises_first_failure_witness :
  detect "demo.jpg" false Samples.id_to_char_B = Raise (KeyError 0).
Proof.
  apply (detect_raises_first_failure (H := Demo.collaborators) "demo.jpg" false
           Samples.id_to_char_B [] [Demo.rec_tall; Demo.rec_short] Demo.rec_wide).
  - reflexivity.
  - constructor.
  - unfold passes. cbn [snd ctpn_predict Demo.collaborators].
    rewrite demo_rectify_wide. reflexivity.
  - unfold text_of, strip_of. cbn [snd ctpn_predict Demo.collaborators].
    rewrite demo_rectify_wide. vm_compute. reflexivity.
Defined.

Lemma detect_run_ocr_calls_witness :
  rev [ {| PIL.size := (40, 20); PIL.im_mode := PIL.L; PIL.data := tt |};
        {| PIL.size := (100, 20); PIL.im_mode := PIL.L; PIL.data := tt |} ]
  = map (strip_of Demo.img false) (List.filter (passes Demo.img false) Demo.text_recs).
Proof.
  exact (detect_run_ocr_calls (H := Demo.collaborators) "demo.jpg" false
           Demo.id_to_char _ demo_detect_run).
Defined.

Lemma rectify_upright_shape_witness :
  shape0 (rectify Demo.img false Demo.rec_short) = 20
  /\ shape1 (rectify Demo.img false Demo.rec_short) = 40.
Proof.
  destruct (rectify_upright_shape (H := Demo.collaborators) Demo.img Demo.rec_short)
    as [H0 [H1 _]]; [cbn; lia..|].
  split; [exact H0|exact H1].
Defined.

Lemma rotated_canvas_bounds_witness :
  0 <= shape0 (rotated_canvas Demo.img 30) <= 300.
Proof.
  destruct (rotated_canvas_bounds (H := Demo.collaborators) Demo.img 30
              (10, 10) (110, 10) (110, 30) (10, 30)) as [Hrows _]; [cbn; lia|cbn; lia|].
  exact Hrows.
Defined.

Lemma degree_of_range_witness :
  (-90 < degree_of (crop_corners true 300 200 Demo.rec_slanted) < 90)%R.
Proof.
  destruct (degree_of_range (crop_corners true 300 200 Demo.rec_slanted))
    as [Hrange _]; [vm_compute; reflexivity|].
  exact Hrange.
Defined.

Lemma argmax_first_maximum_witness :
  exists m,
    Demo.a_row !! DenseNetOCR.argmax Demo.a_row = Some m
    /\ (forall i x, Demo.a_row !! i = Some x -> (x <= m)%Q)
    /\ (forall i x, (i < DenseNetOCR.argmax Demo.a_row)%nat ->
                    Demo.a_row !! i = Some x -> (x < m)%Q).
Proof. apply argmax_first_maximum. discriminate. Defined.

Lemma ctc_decode_valid_classes_witness :
  Forall (fun c => (c < 3 - 1)%nat) (DenseNetOCR.ctc_decode Demo.y_AAbA)
  /\ (length (DenseNetOCR.ctc_decode Demo.y_AAbA) <= length Demo.y_AAbA)%nat.
Proof.
  apply ctc_decode_valid_classes; [lia|]. repeat constructor.
Defined.

Lemma predict_raises_KeyError_witness :
  DenseNetOCR.predict (@DenseNetOCR.Img Demo.collaborators Samples.strip)
    Samples.id_to_char_B
  = Raise (KeyError 0).
Proof.
  apply (predict_raises_KeyError (H := Demo.collaborators) _ Samples.strip
           Samples.id_to_char_B [] [0%nat] 0%nat).
  - reflexivity.
  - cbn; lia.
  - cbn; lia.
  - vm_compute. reflexivity.
  - constructor.
  - reflexivity.
Defined.


Lemma scaled_width_aspect_witness :
  exists w : Z,
    DenseNetOCR.scaled_width (100, 20) = Ok w
    /\ w * 20 <= 32 * 100 < (w + 1) * 20.
Proof. apply scaled_width_aspect; lia. Defined.

Lemma select_proposals_with_paired_witness :
  exists (boxes : list CTPN.ibox) (scores : list Q),
    CTPNStage.select_proposals_with CTPN.filter_bbox Demo.bbox Demo.cls_prod1
    = Ok (boxes, scores)
    /\ length boxes = length scores
    /\ forall (k : nat) (b : CTPN.ibox) (s : Q),
         boxes !! k = Some b -> scores !! k = Some s ->
         CTPN.is_fg s = true
         /\ exists (j : nat) (fb : CTPN.fbox),
              Demo.bbox !! j = Some fb /\ Demo.cls_prod1 !! j = Some s
              /\ b = CTPN.astype_int32_box fb.
Proof.
  apply select_proposals_with_paired; [reflexivity|].
  intros l. apply filter_bbox_in_range.
Defined.


Lemma rpn_loss_regr_ignores_other_anchors_witness :
  RpnLoss._rpn_loss_regr (map fst Samples.anchors) (map snd Samples.anchors)
  = RpnLoss._rpn_loss_regr (map fst Samples.anchors') (map snd Samples.anchors').
Proof.
  apply rpn_loss_regr_ignores_other_anchors.
  repeat constructor; try (intros Hc; vm_compute in Hc; discriminate Hc).
Defined.


Lemma rpn_loss_cls_clipped_witness :
  RpnLoss._rpn_loss_cls Samples.xent (map fst Samples.labelled) (map snd Samples.labelled)
  = RpnLoss._rpn_loss_cls Samples.xent (map fst Samples.labelled') (map snd Samples.labelled')
  /\ exists v : Q,
       RpnLoss._rpn_loss_cls Samples.xent (map fst Samples.labelled)
         (map snd Samples.labelled) = Ok v
       /\ (0 <= v <= 10)%Q.
Proof.
  apply rpn_loss_cls_clipped.
  repeat constructor; try (intros Hc; vm_compute in Hc; discriminate Hc).
Defined.

Lemma strip_time_steps_witness :
  exists b : DenseNetShape.build,
    DenseNetShape.build_model 32
      (fst (PIL.size (DenseNetOCR.resized (strip_of Demo.img false Demo.rec_wide))))
      1 64 3 = Some b
    /\ snd (PIL.size (DenseNetOCR.resized (strip_of Demo.img false Demo.rec_wide))) = 32
    /\ 4 <= fst (DenseNetShape.y_pred_shape b)
    /\ snd (DenseNetShape.y_pred_shape b) = 3.
Proof.
  apply (strip_time_steps (H := Demo.collaborators)).
  unfold passes. rewrite demo_rectify_wide. reflexivity.
Defined.
